(** * RequestForm: the reimbursement request form of Ombro Amigo

    A shallow embedding of [src/components/RequestForm.tsx]: the
    reimbursement calculator, the dependent list editor, the file upload
    loop and the submit handler, with the properties the specification
    states about them.

    Conventions of the embedding.
    - A JavaScript [number] that carries money is a binary64 float
      ([PrimFloat.float], same format and rounding as the JS engine).
    - A [number] that is a byte count or a millisecond timestamp is a
      natural number ([N]); an array index is an integer ([Z]).
    - A JavaScript string is a [string] (a sequence of bytes, UTF-8 for
      the literals of the source).
    - Calls that leave the component (clock, storage, hooks, toasts) are
      steps of a state-and-exception monad over a [World] that records
      every call in the order it was made.  [console.log] and
      [console.error] have no effect on any result and are left out. *)

From Stdlib Require Import ZArith NArith Floats Lia Ascii String.
From stdpp Require Import base option list strings pretty gmap.

Set Warnings "-inexact-float".

#[local] Open Scope string_scope.

(** ** Reimbursement calculator *)

Module Calculator.

#[local] Open Scope float_scope.

(* const BASE_SALARY = 2018.36;  const SALARY_PERCENTAGE = 0.9; *)
Definition BASE_SALARY : float := 2018.36.
Definition SALARY_PERCENTAGE : float := 0.9.

(* const calculateReimbursement = (salary: number) => { ... } *)
Definition calculateReimbursement (salary : float) : float :=
  if salary <=? 0 then 0
  else
    let maxReimbursable := salary * SALARY_PERCENTAGE in
    if maxReimbursable <=? BASE_SALARY then BASE_SALARY
    else maxReimbursable.

(** The body of [calculateReimbursement] without its first line: the
    floor/percentage comparison alone. *)
Definition floorOrPercentage (salary : float) : float :=
  let maxReimbursable := salary * SALARY_PERCENTAGE in
  if maxReimbursable <=? BASE_SALARY then BASE_SALARY
  else maxReimbursable.

End Calculator.

(** ** Dependent list editor *)

Module Dependents.

(* interface Dependent { name: string; relationship: string; }
   At run time an object may lack a property: [None] is [undefined]. *)
Record Dependent := {
  name : option string;
  relationship : option string;
}.

(* keyof Dependent *)
Inductive DependentKey := Name | Relationship.

(** A position of a JavaScript array: an empty slot (a hole of a sparse
    array), the value [undefined], or an object. *)
Inductive Slot :=
  | Empty
  | Undefined
  | Obj (d : Dependent).

(** The largest array length, 2^32 - 1: an integer key at or above it, or
    below zero, is an ordinary property of the array object and not one
    of its elements. *)
Definition MAX_ARRAY_LENGTH : Z := 4294967295.

Definition isArrayIndex (index : Z) : bool :=
  (0 <=? index)%Z && (index <? MAX_ARRAY_LENGTH)%Z.

(* [...array]: the iterator visits 0 .. length-1, a hole reads undefined *)
Definition spread (array : list Slot) : list Slot :=
  (fun s => match s with Empty => Undefined | _ => s end) <$> array.

(* array[index]: a hole, an absent position, an absent property *)
Definition getIndex (array : list Slot) (index : Z) : Slot :=
  if isArrayIndex index then
    match array !! Z.to_nat index with
    | Some (Obj d) => Obj d
    | _ => Undefined
    end
  else Undefined.

(* array[index] = v: in range replaces, past the end extends with holes;
   a key that is not an array index becomes a property that no operation
   of the component reads, and the elements stay *)
Definition setIndex (array : list Slot) (index : Z) (v : Slot) : list Slot :=
  if isArrayIndex index then
    let i := Z.to_nat index in
    if (i <? length array)%nat then <[i := v]> array
    else array ++ replicate (i - length array) Empty ++ [v]
  else array.

(* { ...source }: spreading undefined copies nothing *)
Definition spreadObject (source : Slot) : Dependent :=
  match source with
  | Obj d => d
  | _ => {| name := None; relationship := None |}
  end.

(* { ...object, [field]: value } *)
Definition withField (object : Dependent) (field : DependentKey)
    (value : string) : Dependent :=
  match field with
  | Name => {| name := Some value; relationship := relationship object |}
  | Relationship => {| name := name object; relationship := Some value |}
  end.

(* setDependents([...dependents, { name: '', relationship: '' }]) *)
Definition addDependent (dependents : list Slot) : list Slot :=
  spread dependents ++ [Obj {| name := Some ""; relationship := Some "" |}].

(* setDependents(dependents.filter((_, i) => i !== index)): filter skips
   the holes and keeps the values at the other positions *)
Definition removeDependent (dependents : list Slot) (index : Z) : list Slot :=
  omap (fun '(i, s) =>
          match s with
          | Empty => None
          | _ => if (Z.of_nat i =? index)%Z then None else Some s
          end)
       (imap (fun i s => (i, s)) dependents).

(* const updated = [...dependents];
   updated[index] = { ...updated[index], [field]: value };
   setDependents(updated); *)
Definition updateDependent (dependents : list Slot) (index : Z)
    (field : DependentKey) (value : string) : list Slot :=
  let updated := spread dependents in
  setIndex updated index
    (Obj (withField (spreadObject (getIndex updated index)) field value)).

End Dependents.

(** ** The world outside the component *)

Module Platform.

(* The DOM's File: file.name and file.size (bytes). *)
Record File := {
  file_name : string;
  file_size : N;
}.

(* useAuth(): profile, of which the component reads profile.id *)
Record Profile := { profile_id : string }.

(* the third argument of storage.upload *)
Record StorageOptions := {
  cacheControl : string;
  upsert : bool;
}.

(* the { data, error } a storage upload resolves to *)
Record StorageError := { message : string }.
Record StorageData := { path : string }.
Record StorageResponse := {
  data : option StorageData;
  error : option StorageError;
}.

(* an entry of the invoices state (any[]): inv.file and the rest *)
Record Invoice := {
  file : option File;
  description : string;
}.

(* the argument of createRequest *)
Record RequestPayload := {
  req_type : string;
  req_amount : float;
  req_polo : string;
  req_cpf : string;
  req_invoices : list Invoice;
  req_dependents : list Dependents.Slot;
}.

(* what createRequest resolves to, when it is not null: created.id *)
Record Created := { created_id : string }.

(* the argument of toast *)
Record Toast := {
  title : string;
  toast_description : string;
  variant : option string;
}.

(* new Error(message) *)
Record JSError := { error_message : string }.

Inductive Outcome (A : Type) :=
  | Return (a : A)
  | Throw (e : JSError).
Arguments Return {A} a.
Arguments Throw {A} e.

(** The services the component calls: the clock, the storage bucket and
    the two hooks [useRequests] and [useInvoices].  Each answers from a
    state of its own, about which nothing is assumed. *)
Class Services := {
  Env : Type;
  env_now : Env -> N * Env;
  env_upload :
    string -> string -> File -> StorageOptions -> Env -> StorageResponse * Env;
  env_createRequest : RequestPayload -> Env -> Outcome (option Created) * Env;
  env_uploadInvoices : string -> list File -> Env -> Outcome unit * Env;
}.

(** Every call that leaves the component, with what it was given and,
    for the clock and the storage, what it answered. *)
Inductive Call :=
  | CallDateNow (timestamp : N)
  | CallStorageUpload (bucket key : string) (f : File)
      (options : StorageOptions) (response : StorageResponse)
  | CallCreateRequest (payload : RequestPayload)
  | CallUploadInvoices (requestId : string) (files : list File)
  | CallToast (t : Toast).

(* type FormData = z.infer<typeof formSchema> *)
Record FormData := {
  cpf : string;
  amount : float;
  polo : string;
  salary : option float;
}.

(* a validation message of the resolver, by field *)
Record Issue := {
  issue_field : string;
  issue_message : string;
}.

(** The component's own state: the [useState] cells and the form. *)
Record FormState := {
  values : FormData;
  errors : list Issue;
  dependents : list Dependents.Slot;
  invoices : list Invoice;
  showCalculator : bool;
  uploading : bool;
}.

Record World `{Services} := {
  env : Env;
  state : FormState;
  calls : list Call;
}.

End Platform.

(** ** State and exceptions *)

Module Effects.
Import Platform.

Section Monad.
Context `{Services}.

Definition M (A : Type) : Type := World -> Outcome A * World.

Definition ret {A} (a : A) : M A := fun w => (Return a, w).

Definition bind {A B} (m : M A) (k : A -> M B) : M B :=
  fun w =>
    match m w with
    | (Return a, w') => k a w'
    | (Throw e, w') => (Throw e, w')
    end.

(* throw e *)
Definition throw {A} (e : JSError) : M A := fun w => (Throw e, w).

(* try { m } catch (error) { handler error } *)
Definition tryCatch {A} (m : M A) (handler : JSError -> M A) : M A :=
  fun w =>
    match m w with
    | (Return a, w') => (Return a, w')
    | (Throw e, w') => handler e w'
    end.

(* try { m } finally { cleanup }: cleanup runs on both exits, and the
   exit of m stands unless cleanup throws *)
Definition tryFinally {A} (m : M A) (cleanup : M unit) : M A :=
  fun w =>
    let '(r, w') := m w in
    match cleanup w' with
    | (Return _, w'') => (r, w'')
    | (Throw e, w'') => (Throw e, w'')
    end.

Definition record (c : Call) : M unit :=
  fun w => (Return tt,
            {| env := env w; state := state w; calls := calls w ++ [c] |}).

Definition getState : M FormState := fun w => (Return (state w), w).

Definition modifyState (f : FormState -> FormState) : M unit :=
  fun w => (Return tt,
            {| env := env w; state := f (state w); calls := calls w |}).

(* Date.now() *)
Definition Date_now : M N :=
  fun w =>
    let '(t, e) := env_now (env w) in
    (Return t,
     {| env := e; state := state w; calls := calls w ++ [CallDateNow t] |}).

(* supabase.storage.from(bucket).upload(key, file, options) *)
Definition storage_upload (bucket key : string) (f : File)
    (options : StorageOptions) : M StorageResponse :=
  fun w =>
    let '(r, e) := env_upload bucket key f options (env w) in
    (Return r,
     {| env := e; state := state w;
        calls := calls w ++ [CallStorageUpload bucket key f options r] |}).

(* createRequest(payload), of useRequests *)
Definition createRequest (payload : RequestPayload) : M (option Created) :=
  fun w =>
    let '(r, e) := env_createRequest payload (env w) in
    (r,
     {| env := e; state := state w;
        calls := calls w ++ [CallCreateRequest payload] |}).

(* uploadInvoices(requestId, files), of useInvoices *)
Definition uploadInvoices (requestId : string) (files : list File) : M unit :=
  fun w =>
    let '(r, e) := env_uploadInvoices requestId files (env w) in
    (r,
     {| env := e; state := state w;
        calls := calls w ++ [CallUploadInvoices requestId files] |}).

(* toast(t), of useToast *)
Definition toast (t : Toast) : M unit := record (CallToast t).

End Monad.

Declare Scope effect_scope.
Delimit Scope effect_scope with effect.
Notation "x <~ m ;; k" := (bind m (fun x => k))
  (at level 100, m at next level, right associativity) : effect_scope.
Notation "m ;; k" := (bind m (fun _ => k))
  (at level 100, right associativity) : effect_scope.

End Effects.

(** ** File upload *)

Module Upload.
Import Platform Effects.

#[local] Open Scope effect_scope.

Section WithServices.
Context `{Services}.

(* a string in a condition: the empty string is falsy *)
Definition truthy (s : string) : bool := negb (String.eqb s "").

(* profile?.id *)
Definition profileId (profile : option Profile) : option string :=
  profile_id <$> profile.

Definition newError (msg : string) : JSError := {| error_message := msg |}.

(* The body of [for (const file of files) { ... }] in uploadFiles, for
   one file: the path pushed onto uploadedUrls, or the error thrown.
   (fileExt is computed and never read.) *)
Definition uploadOne (id : string) (file : File) : M string :=
  if (50 * 1024 * 1024 <? file_size file)%N then
    throw (newError
             ("Arquivo " +:+ file_name file +:+ " excede o limite de 50MB"))
  else
    timestamp <~ Date_now ;;
    let fileName :=
      id +:+ "/" +:+ pretty timestamp +:+ "-" +:+ file_name file in
    response <~ storage_upload "request-attachments" fileName file
                  {| cacheControl := "3600"; upsert := false |} ;;
    match error response with
    | Some e =>
        throw (newError
                 ("Erro ao fazer upload do arquivo " +:+ file_name file
                  +:+ ": " +:+ message e))
    | None =>
        match data response with
        | Some d =>
            if truthy (path d) then ret (path d)
            else throw (newError
                          ("Upload não retornou um caminho válido para "
                           +:+ file_name file))
        | None =>
            throw (newError
                     ("Upload não retornou um caminho válido para "
                      +:+ file_name file))
        end
    end.

(* the loop over files, then [return uploadedUrls] *)
Fixpoint uploadEach (id : string) (files : list File)
    (uploadedUrls : list string) : M (list string) :=
  match files with
  | [] => ret uploadedUrls
  | file :: rest =>
      p <~ uploadOne id file ;;
      uploadEach id rest (uploadedUrls ++ [p])
  end.

(* const uploadFiles = async (files: File[]) => { ... } *)
Definition uploadFiles (profile : option Profile) (files : list File)
    : M (list string) :=
  match profileId profile with
  | None => ret []
  | Some id =>
      if negb (truthy id) || (length files =? 0)%nat then ret []
      else tryCatch (uploadEach id files []) (fun error => throw error)
  end.

End WithServices.

(** *** Vocabulary of the statements about the upload *)

(** The files handed to the storage service, in call order. *)
Definition uploadedFiles (cs : list Call) : list File :=
  omap (fun c => match c with
                 | CallStorageUpload _ _ f _ _ => Some f
                 | _ => None
                 end) cs.

(** An error names a file when its message contains the file's name. *)
Definition names (f : File) (e : JSError) : Prop :=
  exists before after,
    error_message e = before +:+ file_name f +:+ after.

(** The storage key of a file uploaded at [timestamp]. *)
Definition storageKey (id : string) (timestamp : N) (f : File) : string :=
  id +:+ "/" +:+ pretty timestamp +:+ "-" +:+ file_name f.

(** The answer of a successful upload that stored the file at [p]. *)
Definition stored (p : string) : StorageResponse :=
  {| data := Some {| path := p |}; error := None |}.

(** The two calls a file that uploads leaves in the trace. *)
Definition uploadCalls (id : string) (f : File) (step : N * string)
    : list Call :=
  [CallDateNow step.1;
   CallStorageUpload "request-attachments" (storageKey id step.1 f) f
     {| cacheControl := "3600"; upsert := false |} (stored step.2)].

(** Every upload call of a list of calls asks the storage service not
    to overwrite, in the bucket of the request attachments. *)
Definition neverOverwrites (cs : list Call) : Prop :=
  Forall (fun c => match c with
                   | CallStorageUpload bucket _ _ o _ =>
                       bucket = "request-attachments" /\ upsert o = false
                   | _ => True
                   end) cs.

Section Attempts.
Context `{Services}.

(** The world after one clock read and one upload call. *)
Definition afterAttempt (w : World) (t : N) (key : string) (f : File)
    (r : StorageResponse) (e : Env) : World :=
  {| env := e; state := state w;
     calls := calls w
              ++ [CallDateNow t;
                  CallStorageUpload "request-attachments" key f
                    {| cacheControl := "3600"; upsert := false |} r] |}.

(** The three ways one file fails, with the error thrown and the world
    left behind. *)
Inductive Failure (id : string) (f : File) (w : World)
    : JSError -> World -> Prop :=
  | Oversize :
      (50 * 1024 * 1024 < file_size f)%N ->
      Failure id f w
        (newError ("Arquivo " +:+ file_name f +:+ " excede o limite de 50MB"))
        w
  | TransportError t e1 r e2 err :
      (file_size f <= 50 * 1024 * 1024)%N ->
      env_now (env w) = (t, e1) ->
      env_upload "request-attachments" (storageKey id t f) f
        {| cacheControl := "3600"; upsert := false |} e1 = (r, e2) ->
      error r = Some err ->
      Failure id f w
        (newError ("Erro ao fazer upload do arquivo " +:+ file_name f
                   +:+ ": " +:+ message err))
        (afterAttempt w t (storageKey id t f) f r e2)
  | MissingPath t e1 r e2 :
      (file_size f <= 50 * 1024 * 1024)%N ->
      env_now (env w) = (t, e1) ->
      env_upload "request-attachments" (storageKey id t f) f
        {| cacheControl := "3600"; upsert := false |} e1 = (r, e2) ->
      error r = None ->
      path <$> data r = None \/ path <$> data r = Some "" ->
      Failure id f w
        (newError ("Upload não retornou um caminho válido para "
                   +:+ file_name f))
        (afterAttempt w t (storageKey id t f) f r e2).

(** What [uploadOne] makes of the storage service's answer. *)
Definition verdict (f : File) (r : StorageResponse) : Outcome string :=
  match error r with
  | Some e =>
      Throw (newError ("Erro ao fazer upload do arquivo " +:+ file_name f
                       +:+ ": " +:+ message e))
  | None =>
      match data r with
      | Some d =>
          if truthy (path d) then Return (path d)
          else Throw (newError ("Upload não retornou um caminho válido para "
                                +:+ file_name f))
      | None =>
          Throw (newError ("Upload não retornou um caminho válido para "
                           +:+ file_name f))
      end
  end.

End Attempts.

End Upload.

(** ** Validation and submission *)

Module Submit.
Import Platform Effects Upload.

#[local] Open Scope effect_scope.

Definition issue (field msg : string) : list Issue :=
  [{| issue_field := field; issue_message := msg |}].

Definition isDigit (c : ascii) : bool :=
  (48 <=? nat_of_ascii c)%nat && (nat_of_ascii c <=? 57)%nat.

(* /^\d{11}$/.test(s) *)
Definition elevenDigits (s : string) : bool :=
  (String.length s =? 11)%nat && forallb isDigit (list_ascii_of_string s).

(* z.number().min(bound, msg): NaN is not a number for zod, and a value
   below the bound is too small *)
Definition numberMin (field : string) (bound : float) (msg : string)
    (x : float) : list Issue :=
  if is_nan x then issue field "Expected number, received nan"
  else if (x <? bound)%float then issue field msg
  else [].

(* s.length: the number of UTF-16 code units of the text whose UTF-8
   bytes are [s].  A byte below 128 is one unit; a lead byte opens a
   character of one unit (two or three bytes) or two units (four bytes)
   and the [pending] bytes that continue it add none; a continuation
   byte that continues nothing reads as one replacement character. *)
Fixpoint jsLengthFrom (pending : nat) (s : string) : nat :=
  match s with
  | EmptyString => 0
  | String c rest =>
      let b := nat_of_ascii c in
      if (b <? 128)%nat then S (jsLengthFrom 0 rest)
      else if (b <? 192)%nat then
        match pending with
        | O => S (jsLengthFrom 0 rest)
        | S k => jsLengthFrom k rest
        end
      else if (b <? 224)%nat then S (jsLengthFrom 1 rest)
      else if (b <? 240)%nat then S (jsLengthFrom 2 rest)
      else S (S (jsLengthFrom 3 rest))
  end.

Definition jsLength (s : string) : nat := jsLengthFrom 0 s.

(* z.string().min(n, msg): too small when s.length < n *)
Definition stringMin (field : string) (n : nat) (msg : string)
    (s : string) : list Issue :=
  if (jsLength s <? n)%nat then issue field msg else [].

(* const dependentSchema = z.object({ name: ..., relationship: ... }) *)
Definition dependentSchema (d : Dependents.Dependent) : list Issue :=
  match Dependents.name d with
  | Some s =>
      stringMin "name" 2
        "Nome do dependente deve ter pelo menos 2 caracteres" s
  | None => issue "name" "Required"
  end ++
  match Dependents.relationship d with
  | Some s => stringMin "relationship" 1 "Selecione o parentesco" s
  | None => issue "relationship" "Required"
  end.

(* const formSchema = z.object({ cpf: ..., amount: ..., polo: ...,
   salary: ... }) *)
Definition formSchema (v : FormData) : list Issue :=
  stringMin "cpf" 11 "CPF obrigatório" (cpf v)
  ++ (if elevenDigits (cpf v) then []
      else issue "cpf" "CPF deve ter 11 dígitos numéricos")
  ++ numberMin "amount" 0.01 "Valor deve ser maior que zero" (amount v)
  ++ stringMin "polo" 1 "Selecione o polo" (polo v)
  ++ match salary v with
     | Some x => numberMin "salary" 0 "Salário deve ser um valor válido" x
     | None => []
     end.

(* defaultValues of useForm *)
Definition defaultValues : FormData :=
  {| cpf := ""; amount := 0; polo := ""; salary := Some 0%float |}.

Definition setUploading (b : bool) (s : FormState) : FormState :=
  {| values := values s; errors := errors s; dependents := dependents s;
     invoices := invoices s; showCalculator := showCalculator s;
     uploading := b |}.

Definition setErrors (l : list Issue) (s : FormState) : FormState :=
  {| values := values s; errors := l; dependents := dependents s;
     invoices := invoices s; showCalculator := showCalculator s;
     uploading := uploading s |}.

(* form.reset(); setInvoices([]); setDependents([]);
   setShowCalculator(false); *)
Definition resetForm (s : FormState) : FormState :=
  {| values := defaultValues; errors := []; dependents := [];
     invoices := []; showCalculator := false; uploading := uploading s |}.

(** Of the issues of a validation, the first of each field. *)
Fixpoint firstPerField (seen : list string) (issues : list Issue)
    : list Issue :=
  match issues with
  | [] => []
  | i :: rest =>
      if existsb (String.eqb (issue_field i)) seen
      then firstPerField seen rest
      else i :: firstPerField (issue_field i :: seen) rest
  end.

Section WithServices.
Context `{Services}.

(* async function onSubmit(values: FormData) { ... } *)
Definition onSubmit (profile : option Profile) (v : FormData) : M unit :=
  match profileId profile with
  | Some id =>
      if negb (truthy id) then
        toast {| title := "Erro";
                 toast_description := "Usuário não encontrado";
                 variant := Some "destructive" |}
      else
        tryFinally
          (tryCatch
             (modifyState (setUploading true) ;;
              s <~ getState ;;
              created <~ createRequest
                           {| req_type := "outros";
                              req_amount := amount v;
                              req_polo := polo v;
                              req_cpf := cpf v;
                              req_invoices := invoices s;
                              req_dependents := dependents s |} ;;
              let filesToUpload := omap file (invoices s) in
              match created with
              | Some c =>
                  if (0 <? length filesToUpload)%nat
                     && truthy (created_id c)
                  then uploadInvoices (created_id c) filesToUpload
                  else ret tt
              | None => ret tt
              end ;;
              modifyState resetForm ;;
              toast {| title := "Sucesso!";
                       toast_description := "Solicitação criada com sucesso";
                       variant := None |})
             (fun error =>
                toast {| title := "Erro";
                         toast_description :=
                           "Erro ao criar solicitação. Tente novamente.";
                         variant := Some "destructive" |}))
          (modifyState (setUploading false))
  | None =>
      toast {| title := "Erro";
               toast_description := "Usuário não encontrado";
               variant := Some "destructive" |}
  end.

(** Modelled from the spec: [form.handleSubmit(onSubmit)] of line 222,
    the submit handler of the form library (react-hook-form with
    zodResolver(formSchema), lines 55-63), which is not under src/.
    Section 4.5: a submit "runs schema validation"; a failure leaves
    "field-level error messages; no remote calls are made"; on success
    the workflow goes on to creation, here [onSubmit] on the form's
    values.  The form keeps one message per field, the first. *)
Definition handleSubmit (profile : option Profile) : M unit :=
  s <~ getState ;;
  match formSchema (values s) with
  | [] => modifyState (setErrors []) ;; onSubmit profile (values s)
  | issues => modifyState (setErrors (firstPerField [] issues))
  end.

End WithServices.

(** *** Vocabulary of the statements about the submission *)

(** The toast of a submission without a signed-in user. *)
Definition missingIdentityToast : Toast :=
  {| title := "Erro";
     toast_description := "Usuário não encontrado";
     variant := Some "destructive" |}.

(** A call that reaches the request service or the storage. *)
Definition isRemote (c : Call) : bool :=
  match c with
  | CallStorageUpload _ _ _ _ _ | CallCreateRequest _
  | CallUploadInvoices _ _ => true
  | CallDateNow _ | CallToast _ => false
  end.

(** What the form holds in the scenario of the specification. *)
Definition filledValues : FormData :=
  {| cpf := "12345678901"; amount := 500; polo := "3M Sumaré";
     salary := Some 1500%float |}.

End Submit.

(** ** An in-memory service, to run the component on concrete inputs *)

Module InMemory.
Import Platform.

(** A clock that advances by [step] at each reading (0: a clock that
    stands still), a bucket from keys to stored files, and the requests
    created so far. *)
Record Store := {
  clock : N;
  step : N;
  bucket : gmap string File;
  requests : list RequestPayload;
}.

Definition now (s : Store) : N * Store :=
  (clock s,
   {| clock := clock s + step s; step := step s; bucket := bucket s;
      requests := requests s |}).

(** An upload to a key already present is refused unless [upsert] is
    set; otherwise the file is stored and its key returned as path. *)
Definition upload (_ key : string) (f : File) (o : StorageOptions) (s : Store)
    : StorageResponse * Store :=
  match bucket s !! key with
  | Some _ =>
      if upsert o then
        ({| data := Some {| path := key |}; error := None |},
         {| clock := clock s; step := step s;
            bucket := <[key := f]> (bucket s); requests := requests s |})
      else
        ({| data := None;
            error := Some {| message := "The resource already exists" |} |},
         s)
  | None =>
      ({| data := Some {| path := key |}; error := None |},
       {| clock := clock s; step := step s;
          bucket := <[key := f]> (bucket s); requests := requests s |})
  end.

Definition create (p : RequestPayload) (s : Store)
    : Outcome (option Created) * Store :=
  (Return (Some {| created_id := "request-" +:+ pretty (length (requests s)) |}),
   {| clock := clock s; step := step s; bucket := bucket s;
      requests := requests s ++ [p] |}).

Definition attach (_ : string) (_ : list File) (s : Store)
    : Outcome unit * Store :=
  (Return tt, s).

#[export] Instance services : Services := {|
  Env := Store;
  env_now := now;
  env_upload := upload;
  env_createRequest := create;
  env_uploadInvoices := attach;
|}.

Definition emptyForm : FormState :=
  {| values := Submit.defaultValues; errors := []; dependents := [];
     invoices := []; showCalculator := false; uploading := false |}.

(** A fresh world: an empty bucket, no call made yet. *)
Definition start (t dt : N) : World :=
  {| env := {| clock := t; step := dt; bucket := ∅; requests := [] |};
     state := emptyForm;
     calls := [] |}.

(** An owner and three files: two of 1 MiB, one of 60 MiB. *)
Definition owner : option Profile := Some {| profile_id := "u1" |}.
Definition nota : File := {| file_name := "nota.pdf"; file_size := 1048576 |}.
Definition recibo : File :=
  {| file_name := "recibo.pdf"; file_size := 1048576 |}.
Definition video : File :=
  {| file_name := "video.mp4"; file_size := 62914560 |}.

End InMemory.

(** ** What the form shows and what its inputs keep *)

Module Inputs.
Import Calculator.

#[local] Open Scope float_scope.

(* watchSalary || 0: undefined, NaN, 0 and -0 are falsy *)
Definition orZero (watchSalary : option float) : float :=
  match watchSalary with
  | Some x => if is_nan x || (x =? 0) then 0 else x
  | None => 0
  end.

(* const suggestedAmount = calculateReimbursement(watchSalary || 0); *)
Definition suggestedAmount (watchSalary : option float) : float :=
  calculateReimbursement (orZero watchSalary).

(* {showCalculator && ( ... {suggestedAmount > 0 && ( ... )} )}: the
   box with the suggestion, inside the panel of the calculator *)
Definition showsSuggestion (showCalculator : bool)
    (watchSalary : option float) : bool :=
  showCalculator && (0 <? suggestedAmount watchSalary).

(* inside that box: suggestedAmount === BASE_SALARY
     ? `Piso mínimo: ...` : `90% do salário: ...` *)
Definition showsFloorLabel (showCalculator : bool)
    (watchSalary : option float) : bool :=
  showsSuggestion showCalculator watchSalary
  && (suggestedAmount watchSalary =? BASE_SALARY).

Definition showsPercentageLabel (showCalculator : bool)
    (watchSalary : option float) : bool :=
  showsSuggestion showCalculator watchSalary
  && negb (suggestedAmount watchSalary =? BASE_SALARY).

(* onChange of the CPF input:
   e.target.value.replace(/\D/g, '').slice(0, 11) *)
Definition sanitizeCpf (value : string) : string :=
  string_of_list_ascii
    (take 11 (List.filter Submit.isDigit (list_ascii_of_string value))).

(** A list of dependents as the type [Dependent[]] promises it: no hole,
    no [undefined], every object with its two properties. *)
Definition complete (s : Dependents.Slot) : Prop :=
  match s with
  | Dependents.Obj {| Dependents.name := Some _;
                      Dependents.relationship := Some _ |} => True
  | _ => False
  end.

(** The property of an object a key names. *)
Definition fieldOf (field : Dependents.DependentKey)
    (d : Dependents.Dependent) : option string :=
  match field with
  | Dependents.Name => Dependents.name d
  | Dependents.Relationship => Dependents.relationship d
  end.

#[export] Instance DependentKey_eq_dec : EqDecision Dependents.DependentKey.
Proof. intros [] []; (left; reflexivity) || (right; discriminate). Defined.

(** The filter of [removeDependent] on the part of an array that starts
    at position [k]. *)
Definition removeFrom (k : nat) (index : Z) (part : list Dependents.Slot)
    : list Dependents.Slot :=
  omap (fun '(i, s) =>
          match s with
          | Dependents.Empty => None
          | _ => if (Z.of_nat i =? index)%Z then None else Some s
          end)
       (imap (fun i s => (k + i, s)%nat) part).

End Inputs.

(** ** Vocabulary of the statements about runs *)

Module Traces.
Import Platform Upload Submit.

(** A call to the clock or to the storage: the only calls of the upload
    loop. *)
Definition storageOnly (c : Call) : Prop :=
  match c with
  | CallDateNow _ | CallStorageUpload _ _ _ _ _ => True
  | _ => False
  end.

Definition isToast (c : Call) : Prop :=
  match c with
  | CallToast _ => True
  | _ => False
  end.

(** A string of decimal digits. *)
Definition digits (s : string) : Prop :=
  Forall (fun c => isDigit c = true) (list_ascii_of_string s).

(** The argument [onSubmit] gives to createRequest. *)
Definition requestOf (v : FormData) (s : FormState) : RequestPayload :=
  {| req_type := "outros"; req_amount := amount v; req_polo := polo v;
     req_cpf := cpf v; req_invoices := invoices s;
     req_dependents := dependents s |}.

(** The files of the invoices that carry one: filesToUpload. *)
Definition filesOf (s : FormState) : list File := omap file (invoices s).

Definition successToast : Toast :=
  {| title := "Sucesso!";
     toast_description := "Solicitação criada com sucesso";
     variant := None |}.

Definition failureToast : Toast :=
  {| title := "Erro";
     toast_description := "Erro ao criar solicitação. Tente novamente.";
     variant := Some "destructive" |}.

(** The form after a submission that went through. *)
Definition cleared : FormState :=
  {| values := defaultValues; errors := []; dependents := [];
     invoices := []; showCalculator := false; uploading := false |}.

(** created?.id, when it is truthy. *)
Definition requestId (created : option Created) : option string :=
  match created with
  | Some c => if truthy (created_id c) then Some (created_id c) else None
  | None => None
  end.

(** A call [onSubmit] may make after createRequest. *)
Definition afterCreate (c : Call) : Prop :=
  match c with
  | CallUploadInvoices _ _ | CallToast _ => True
  | _ => False
  end.

Section Worlds.
Context `{Services}.

(** The world a submission ends in: the services as they are left, the
    form, and the calls made since [w]. *)
Definition ended (e : Env) (s : FormState) (w : World) (new : list Call)
    : World :=
  {| env := e; state := s; calls := calls w ++ new |}.

End Worlds.

End Traces.

(** ** Services that answer as they are told *)

Module Scripted.
Import Platform.

(** The answers createRequest and uploadInvoices will give. *)
Record Script := {
  createAnswer : Outcome (option Created);
  attachAnswer : Outcome unit;
}.

#[export] Instance services : Services := {|
  Env := Script;
  env_now := fun s => (0%N, s);
  env_upload := fun _ key _ _ s =>
    ({| data := Some {| path := key |}; error := None |}, s);
  env_createRequest := fun _ s => (createAnswer s, s);
  env_uploadInvoices := fun _ _ s => (attachAnswer s, s);
|}.

(** A form filled as in the scenario of the specification, with two
    invoices of which the first carries a file. *)
Definition invoiced : FormState :=
  {| values := Submit.filledValues; errors := []; dependents := [];
     invoices := [ {| file := Some InMemory.nota; description := "consulta" |};
                   {| file := None; description := "exame" |} ];
     showCalculator := true; uploading := false |}.

Definition run (create : Outcome (option Created)) (attach : Outcome unit)
    : World :=
  {| env := {| createAnswer := create; attachAnswer := attach |};
     state := invoiced; calls := [] |}.

(** A signed-in user, an error of the network, a created request. *)
Definition user : option Profile := Some {| profile_id := "u1" |}.
Definition down : JSError := {| error_message := "network" |}.
Definition r1 : option Created := Some {| created_id := "r1" |}.

End Scripted.

(** ** The component as its controls drive it *)

Module Component.
Import Platform Effects Upload Submit Inputs Traces.

#[local] Open Scope effect_scope.

(* the values of the SelectItem of the polo field, lines 303-306 *)
Definition polos : list string :=
  ["3M Sumaré"; "3M Itapetininga"; "3M Manaus"; "3M Ribeirão Preto"].

Definition setValues (v : FormData) (s : FormState) : FormState :=
  {| values := v; errors := errors s; dependents := dependents s;
     invoices := invoices s; showCalculator := showCalculator s;
     uploading := uploading s |}.

Definition setInvoices (l : list Invoice) (s : FormState) : FormState :=
  {| values := values s; errors := errors s; dependents := dependents s;
     invoices := l; showCalculator := showCalculator s;
     uploading := uploading s |}.

Definition setShowCalculator (b : bool) (s : FormState) : FormState :=
  {| values := values s; errors := errors s; dependents := dependents s;
     invoices := invoices s; showCalculator := b;
     uploading := uploading s |}.

Definition withSalary (x : option float) (v : FormData) : FormData :=
  {| cpf := cpf v; amount := amount v; polo := polo v; salary := x |}.

Definition withAmount (x : float) (v : FormData) : FormData :=
  {| cpf := cpf v; amount := x; polo := polo v; salary := salary v |}.

Definition withPolo (x : string) (v : FormData) : FormData :=
  {| cpf := cpf v; amount := amount v; polo := x; salary := salary v |}.

Definition withCpf (x : string) (v : FormData) : FormData :=
  {| cpf := x; amount := amount v; polo := polo v; salary := salary v |}.


Section WithServices.
Context `{Services}.

(** [x.toFixed(2)], the text of a number with two decimals: a parameter,
    its digits play no part below. *)
Variable toFixed2 : float -> string.

(* const useSuggestedAmount = () => { form.setValue('amount',
   suggestedAmount); toast({ ... }); } *)
Definition useSuggestedAmount : M unit :=
  s <~ getState ;;
  let suggested := suggestedAmount (salary (values s)) in
  modifyState (setValues (withAmount suggested (values s))) ;;
  toast {| title := "Valor atualizado";
           toast_description :=
             "Valor sugerido de R$ " +:+ toFixed2 suggested +:+ " aplicado.";
           variant := None |}.


Definition update (f : FormState -> FormState) (w : World) : World :=
  {| env := env w; state := f (state w); calls := calls w |}.

(** One event of the rendered component: every handler the JSX of lines
    209-372 attaches, and what the form library and the invoice
    manager, which are not under src/, may do with the callbacks they
    are given.  Of the form library nothing is assumed but that it
    stores messages and calls [onSubmit] with some values; of the
    invoice manager, that it calls [setInvoices] with some list.  A
    submission is taken as one event, from its call to its last toast. *)
Inductive step (w : World) : World -> Prop :=
  (* line 231: onClick={() => setShowCalculator(!showCalculator)} *)
  | ToggleCalculator :
      step w (update (setShowCalculator (negb (showCalculator (state w)))) w)
  (* line 252: field.onChange(parseFloat(e.target.value) || 0),
     rendered inside showCalculator && *)
  | ChangeSalary (parsed : float) :
      showCalculator (state w) = true ->
      step w (update (setValues (withSalary (Some (orZero (Some parsed)))
                                   (values (state w)))) w)
  (* line 276: onClick={useSuggestedAmount}, rendered inside the box of
     the suggestion *)
  | ClickUseSuggested :
      showsSuggestion (showCalculator (state w))
        (salary (values (state w))) = true ->
      step w (useSuggestedAmount w).2
  (* line 296: onValueChange={field.onChange} *)
  | SelectPolo (value : string) :
      value ∈ polos ->
      step w (update (setValues (withPolo value (values (state w)))) w)
  (* line 327: field.onChange(e.target.value.replace(/\D/g, '')
     .slice(0, 11)) *)
  | ChangeCpf (text : string) :
      step w (update (setValues (withCpf (sanitizeCpf text)
                                   (values (state w)))) w)
  (* line 350: field.onChange(parseFloat(e.target.value) || 0) *)
  | ChangeAmount (parsed : float) :
      step w (update (setValues (withAmount (orZero (Some parsed))
                                   (values (state w)))) w)
  (* line 360: <InvoiceManager onChange={setInvoices} ... /> *)
  | ChangeInvoices (l : list Invoice) :
      step w (update (setInvoices l) w)
  (* the form library on validation: messages by field *)
  | ShowErrors (issues : list Issue) :
      step w (update (setErrors issues) w)
  (* line 222: onSubmit={form.handleSubmit(onSubmit)}; the profile is
     the one useAuth gives at that render *)
  | Submit (profile : option Profile) (v : FormData) :
      step w (onSubmit profile v w).2.


End WithServices.








End Component.

(** ** Binary64 results by sign *)

(** A zero, an infinity or a finite number of sign [s]. *)
Inductive signed_result (s : bool) : spec_float -> Prop :=
  | sr_zero : signed_result s (S754_zero s)
  | sr_inf : signed_result s (S754_infinity s)
  | sr_fin m e : signed_result s (S754_finite s m e).

(** ** Facts about binary64 comparison *)

Section FloatOrder.

#[local] Open Scope float_scope.

Lemma SFcompare_antisym (x y : spec_float) (c : comparison) :
  SFcompare x y = Some c -> SFcompare y x = Some (CompOpp c).
Proof.
  destruct x as [sx|sx| |sx mx ex], y as [sy|sy| |sy my ey]; simpl;
    try discriminate;
    try (destruct sx; try destruct sy; intros [= <-]; reflexivity).
  intros [= <-]. f_equal.
  destruct sx, sy; try reflexivity;
    rewrite (Z.compare_antisym ex ey);
    destruct (ex ?= ey)%Z; simpl; try reflexivity.
  all: rewrite <- (Pos.compare_cont_antisym mx my Eq
                   : CompOpp (PosDef.Pos.compare_cont Eq mx my)
                     = PosDef.Pos.compare_cont Eq my mx);
    reflexivity.
Qed.

Lemma ltb_not_leb (x y : float) : (x <? y) = true -> (y <=? x) = false.
Proof.
  rewrite ltb_spec, leb_spec. unfold SFltb, SFleb.
  destruct (SFcompare (Prim2SF x) (Prim2SF y)) as [[ | | ]|] eqn:E;
    try discriminate.
  rewrite (SFcompare_antisym _ _ _ E). reflexivity.
Qed.

(** Rounding a positive mantissa never produces a NaN and keeps the sign
    it was given: the shifted mantissa stays non-negative. *)

Lemma shr_1_nonneg mrs : (0 <= shr_m mrs)%Z -> (0 <= shr_m (shr_1 mrs))%Z.
Proof.
  destruct mrs as [m r s]. simpl.
  destruct m as [|[p|p|]|[p|p|]]; simpl; lia.
Qed.

Lemma iter_pos_nonneg (p : positive) mrs :
  (0 <= shr_m mrs)%Z -> (0 <= shr_m (SpecFloat.iter_pos shr_1 p mrs))%Z.
Proof.
  revert mrs. induction p as [p IH|p IH|]; simpl; intros mrs H.
  - apply IH, IH, shr_1_nonneg, H.
  - apply IH, IH, H.
  - apply shr_1_nonneg, H.
Qed.

Lemma shr_fexp_nonneg pr em m e l :
  (0 <= m)%Z -> (0 <= shr_m (shr_fexp pr em m e l).1)%Z.
Proof.
  intros H. unfold shr_fexp, shr.
  assert (0 <= shr_m (shr_record_of_loc m l))%Z as H0
    by (destruct l as [|[ | | ]]; exact H).
  destruct (_ - e)%Z; simpl; auto using iter_pos_nonneg.
Qed.

Lemma round_nearest_even_nonneg m l :
  (0 <= m)%Z -> (0 <= round_nearest_even m l)%Z.
Proof.
  intros H. destruct l as [|[ | | ]]; simpl; try lia.
  destruct (Z.even m); lia.
Qed.

Lemma binary_round_aux_signed pr em s (m : positive) e l :
  signed_result s (binary_round_aux pr em s (Z.pos m) e l).
Proof.
  unfold binary_round_aux.
  pose proof (shr_fexp_nonneg pr em (Z.pos m) e l ltac:(lia)) as H1.
  destruct (shr_fexp pr em (Z.pos m) e l) as [mrs' e']. simpl in H1.
  pose proof (shr_fexp_nonneg pr em _ e' loc_Exact
                (round_nearest_even_nonneg _ (loc_of_shr_record mrs') H1))
    as H2.
  destruct (shr_fexp pr em _ e' loc_Exact) as [mrs'' e'']. simpl in H2.
  destruct (shr_m mrs'') as [|q|q]; [constructor| |lia].
  destruct (_ <=? _)%Z; constructor.
Qed.

(** The product of a number that is [<= 0] with a positive finite
    constant is a zero, [-infinity] or a negative finite number. *)
Lemma SFmul_nonpositive x m e :
  SFleb x (S754_zero false) = true ->
  (exists s, SF64mul x (S754_finite false m e) = S754_zero s) \/
  signed_result true (SF64mul x (S754_finite false m e)).
Proof.
  destruct x as [s|[|]| |[|] mx ex]; simpl; try discriminate; intros _.
  - left. eauto.
  - right. constructor.
  - right. apply binary_round_aux_signed.
Qed.

(** ... and symmetrically for a number that is [> 0]. *)
Lemma SFmul_positive x m e :
  SFltb (S754_zero false) x = true ->
  signed_result false (SF64mul x (S754_finite false m e)).
Proof.
  destruct x as [s|[|]| |[|] mx ex]; simpl; try discriminate; intros _.
  - constructor.
  - apply binary_round_aux_signed.
Qed.

End FloatOrder.

(** ** The calculator's properties *)

Module CalculatorFacts.
Import Calculator.

#[local] Open Scope float_scope.

(** C1. For a salary strictly above zero the suggestion is the floor
    2018.36 when 90% of the salary is at most the floor, and 90% of the
    salary when that product is above the floor. *)
Theorem calculateReimbursement_positive (salary : float) :
  (0 <? salary) = true ->
  ((salary * 0.9 <=? 2018.36) = true ->
     calculateReimbursement salary = 2018.36) /\
  ((2018.36 <? salary * 0.9) = true ->
     calculateReimbursement salary = salary * 0.9).
Proof.
  intros Hpos. unfold calculateReimbursement.
  rewrite (ltb_not_leb _ _ Hpos). cbv zeta.
  change SALARY_PERCENTAGE with 0.9. change BASE_SALARY with 2018.36.
  split; intros H.
  - rewrite H. reflexivity.
  - rewrite (ltb_not_leb _ _ H). reflexivity.
Qed.

(** For a salary above zero, 90% of it is never a NaN: it compares with
    the floor one way or the other. *)
Lemma percentage_comparable (salary : float) :
  (0 <? salary) = true ->
  (salary * 0.9 <=? 2018.36) = true \/ (2018.36 <? salary * 0.9) = true.
Proof.
  rewrite !ltb_spec, leb_spec, mul_spec. intros H.
  remember (Prim2SF 0.9) as c eqn:Hc. vm_compute in Hc. subst c.
  remember (Prim2SF 2018.36) as b eqn:Hb. vm_compute in Hb. subst b.
  change (Prim2SF 0) with (S754_zero false) in H.
  match goal with
  | |- context [SF64mul _ (S754_finite false ?m ?e)] =>
      destruct (SFmul_positive _ m e H) as [ | |m' e']
  end.
  - left. reflexivity.
  - right. reflexivity.
  - unfold SFleb, SFltb.
    match goal with
    | |- context [SFcompare ?x ?y] =>
        destruct (SFcompare x y) as [c|] eqn:E; [|discriminate E]
    end.
    rewrite (SFcompare_antisym _ _ _ E). destruct c; auto.
Qed.

(** Without the first line of the function, a salary that is [<= 0]
    would get the floor. *)
Lemma floorOrPercentage_nonpositive (salary : float) :
  (salary <=? 0) = true -> floorOrPercentage salary = 2018.36.
Proof.
  intros H. unfold floorOrPercentage. cbv zeta.
  change SALARY_PERCENTAGE with 0.9. change BASE_SALARY with 2018.36.
  enough ((salary * 0.9 <=? 2018.36) = true) as -> by reflexivity.
  rewrite leb_spec in H. rewrite leb_spec, mul_spec.
  remember (Prim2SF 0.9) as c eqn:Hc. vm_compute in Hc. subst c.
  remember (Prim2SF 2018.36) as b eqn:Hb. vm_compute in Hb. subst b.
  change (Prim2SF 0) with (S754_zero false) in H.
  match goal with
  | |- context [SF64mul _ (S754_finite false ?m ?e)] =>
      destruct (SFmul_nonpositive _ m e H) as [[s ->]|[ | |m' e']]
  end; reflexivity.
Qed.

Lemma calculateReimbursement_positive_witness :
  calculateReimbursement 1500 = 2018.36 /\
  calculateReimbursement 3000 = 3000 * 0.9.
Proof.
  split.
  - apply (proj1 (calculateReimbursement_positive 1500 eq_refl)).
    reflexivity.
  - apply (proj2 (calculateReimbursement_positive 3000 eq_refl)).
    reflexivity.
Defined.

(** C9. For a salary that is zero or below, the suggestion is 0: the
    first line of the function returns before the floor comparison, which
    on its own would give the floor 2018.36. *)
Theorem calculateReimbursement_nonpositive (salary : float) :
  (salary <=? 0) = true ->
  calculateReimbursement salary = 0 /\
  floorOrPercentage salary = 2018.36 /\
  (0 =? 2018.36) = false.
Proof.
  intros H. split; [|split].
  - unfold calculateReimbursement. rewrite H. reflexivity.
  - apply floorOrPercentage_nonpositive, H.
  - reflexivity.
Qed.

Lemma calculateReimbursement_nonpositive_witness :
  calculateReimbursement (-250) = 0 /\
  floorOrPercentage (-250) = 2018.36 /\
  (0 =? 2018.36) = false.
Proof. apply (calculateReimbursement_nonpositive (-250)). reflexivity. Defined.

Example calculateReimbursement_zero : calculateReimbursement 0 = 0.
Proof. reflexivity. Qed.

Example calculateReimbursement_nan : calculateReimbursement nan = nan.
Proof. reflexivity. Qed.

End CalculatorFacts.

(** ** The dependent list editor's properties *)

Module DependentsFacts.
Import Dependents.

#[local] Open Scope list_scope.

Lemma length_spread (array : list Slot) : length (spread array) = length array.
Proof. unfold spread. apply length_fmap. Qed.

Lemma spread_dense (array : list Slot) :
  Forall (fun s => s <> Empty) array -> spread array = array.
Proof.
  unfold spread. induction 1 as [|s l Hs _ IH]; [reflexivity|].
  rewrite fmap_cons, IH. destruct s; congruence.
Qed.

Lemma getIndex_past_end (array : list Slot) (index : Z) :
  (Z.of_nat (length array) <= index)%Z -> getIndex array index = Undefined.
Proof.
  intros H. unfold getIndex. destruct (isArrayIndex index); [|reflexivity].
  rewrite lookup_ge_None_2 by lia. reflexivity.
Qed.

(** In range, [updateDependent] touches one position and one field. *)
Lemma updateDependent_in_range (dependents : list Slot) (i : nat)
    (field : DependentKey) (value : string) :
  (i < length dependents)%nat ->
  (Z.of_nat i < MAX_ARRAY_LENGTH)%Z ->
  updateDependent dependents (Z.of_nat i) field value =
  <[i := Obj (withField (spreadObject (getIndex (spread dependents)
                                         (Z.of_nat i))) field value)]>
    (spread dependents).
Proof.
  intros Hi Hmax. unfold updateDependent, setIndex, isArrayIndex.
  rewrite Nat2Z.id, length_spread.
  destruct (Z.leb_spec 0 (Z.of_nat i)); [|lia].
  destruct (Z.ltb_spec (Z.of_nat i) MAX_ARRAY_LENGTH); [|lia].
  destruct (Nat.ltb_spec i (length dependents)); [|lia].
  reflexivity.
Qed.

(** C4 (as stated, refuted). An index that is out of bounds is not a
    no-op: updating position 0 of the empty list yields a one-element
    list. *)
Lemma updateDependent_out_of_bounds_not_noop :
  ~ (forall (dependents : list Slot) (index : Z) (field : DependentKey)
            (value : string),
       (index < 0 \/ Z.of_nat (length dependents) <= index)%Z ->
       updateDependent dependents index field value = dependents).
Proof.
  intros H. specialize (H [] 0%Z Name "Ana" ltac:(simpl; lia)).
  discriminate H.
Qed.

(** C4 (amended). For an index at or past the end of the list (and
    below the array length limit), [updateDependent] grows the list to
    length [index + 1]: the elements of the original keep their
    positions, the positions between the old end and [index] are empty
    slots, and position [index] holds an object whose only property is
    [field], set to [value]; the result differs from the original list.
    For a negative index the elements of the list are those of the
    original. *)
Theorem updateDependent_out_of_bounds (dependents : list Slot) (index : Z)
    (field : DependentKey) (value : string) :
  ((Z.of_nat (length dependents) <= index < MAX_ARRAY_LENGTH)%Z ->
     updateDependent dependents index field value =
       spread dependents
       ++ replicate (Z.to_nat index - length dependents) Empty
       ++ [Obj (withField {| name := None; relationship := None |}
                  field value)]
     /\ length (updateDependent dependents index field value)
        = S (Z.to_nat index)
     /\ updateDependent dependents index field value <> dependents) /\
  ((index < 0)%Z ->
     updateDependent dependents index field value = spread dependents).
Proof.
  split.
  - intros [Hlo Hhi].
    assert (updateDependent dependents index field value =
            spread dependents
            ++ replicate (Z.to_nat index - length dependents) Empty
            ++ [Obj (withField {| name := None; relationship := None |}
                       field value)]) as Heq.
    { unfold updateDependent, setIndex.
      rewrite getIndex_past_end by (rewrite length_spread; exact Hlo).
      unfold isArrayIndex.
      destruct (Z.leb_spec 0 index); [|lia].
      destruct (Z.ltb_spec index MAX_ARRAY_LENGTH); [|lia].
      rewrite length_spread.
      destruct (Nat.ltb_spec (Z.to_nat index) (length dependents)); [lia|].
      reflexivity. }
    assert (length (updateDependent dependents index field value)
            = S (Z.to_nat index)) as Hlen.
    { rewrite Heq, !length_app, length_spread, length_replicate. simpl. lia. }
    split; [exact Heq|]. split; [exact Hlen|].
    intros Hsame. rewrite Hsame in Hlen. lia.
  - intros Hneg. unfold updateDependent, setIndex, isArrayIndex.
    destruct (Z.leb_spec 0 index); [lia|]. reflexivity.
Qed.

Lemma updateDependent_out_of_bounds_witness :
  updateDependent [Obj {| name := Some "Ana"; relationship := Some "filha" |}]
    3 Relationship "filho"
  = [Obj {| name := Some "Ana"; relationship := Some "filha" |};
     Empty; Empty;
     Obj {| name := None; relationship := Some "filho" |}]
  /\ updateDependent [Obj {| name := Some "Ana"; relationship := Some "filha" |}]
       (-1) Relationship "filho"
     = [Obj {| name := Some "Ana"; relationship := Some "filha" |}].
Proof.
  split.
  - apply (proj1 (updateDependent_out_of_bounds
                    [Obj {| name := Some "Ana"; relationship := Some "filha" |}]
                    3 Relationship "filho")).
    unfold MAX_ARRAY_LENGTH. simpl. lia.
  - apply (proj2 (updateDependent_out_of_bounds
                    [Obj {| name := Some "Ana"; relationship := Some "filha" |}]
                    (-1) Relationship "filho")).
    lia.
Defined.

End DependentsFacts.

(** ** The upload loop's properties *)

Module UploadFacts.
Import Platform Effects Upload.

#[local] Open Scope list_scope.

Section WithServices.
Context `{Services}.

Lemma truthy_false (s : string) : truthy s = false <-> s = "".
Proof.
  unfold truthy. rewrite negb_false_iff. apply String.eqb_eq.
Qed.

Lemma uploadOne_unfold (id : string) (f : File) (w : World) :
  uploadOne id f w =
  if (50 * 1024 * 1024 <? file_size f)%N then
    (Throw (newError ("Arquivo " +:+ file_name f
                      +:+ " excede o limite de 50MB")), w)
  else
    let '(t, e1) := env_now (env w) in
    let '(r, e2) := env_upload "request-attachments" (storageKey id t f) f
                      {| cacheControl := "3600"; upsert := false |} e1 in
    (verdict f r, afterAttempt w t (storageKey id t f) f r e2).
Proof.
  unfold uploadOne, bind, Date_now, storage_upload, throw, ret, verdict,
    afterAttempt, storageKey.
  destruct (_ <? _)%N; [reflexivity|].
  destruct (env_now (env w)) as [t e1]. simpl.
  destruct (env_upload _ _ f _ e1) as [r e2]. simpl.
  rewrite <- app_assoc. simpl.
  destruct (error r); [reflexivity|].
  destruct (data r) as [d|]; [|reflexivity].
  destruct (truthy (path d)); reflexivity.
Qed.

Lemma uploadOne_throws (id : string) (f : File) (w w' : World) (e : JSError) :
  uploadOne id f w = (Throw e, w') <-> Failure id f w e w'.
Proof.
  rewrite uploadOne_unfold. split.
  - destruct (N.ltb_spec (50 * 1024 * 1024) (file_size f)) as [Hs|Hs].
    + intros [= <- <-]. constructor. exact Hs.
    + destruct (env_now (env w)) as [t e1] eqn:Hnow.
      destruct (env_upload _ _ f _ e1) as [r e2] eqn:Hup.
      unfold verdict.
      destruct (error r) as [err|] eqn:Herr.
      * intros [= <- <-]. eapply TransportError; eauto.
      * destruct (data r) as [d|] eqn:Hd.
        -- destruct (truthy (path d)) eqn:Ht; [discriminate|].
           intros [= <- <-]. eapply MissingPath; eauto.
           right. rewrite Hd. simpl. f_equal. apply truthy_false, Ht.
        -- intros [= <- <-]. eapply MissingPath; eauto.
           left. rewrite Hd. reflexivity.
  - intros [Hs|t e1 r e2 err Hs Hnow Hup Herr|t e1 r e2 Hs Hnow Hup Herr Hp].
    + destruct (N.ltb_spec (50 * 1024 * 1024) (file_size f)); [|lia].
      reflexivity.
    + destruct (N.ltb_spec (50 * 1024 * 1024) (file_size f)); [lia|].
      rewrite Hnow, Hup. unfold verdict. rewrite Herr. reflexivity.
    + destruct (N.ltb_spec (50 * 1024 * 1024) (file_size f)); [lia|].
      rewrite Hnow, Hup. unfold verdict. rewrite Herr.
      destruct (data r) as [d|]; [|reflexivity].
      destruct Hp as [Hp|Hp]; [discriminate Hp|].
      injection Hp as Hp. rewrite Hp. reflexivity.
Qed.

Lemma append_empty_r (s : string) : s +:+ "" = s.
Proof.
  induction s as [|c s IH]; [reflexivity|].
  change (String c s +:+ "") with (String c (s +:+ "")). rewrite IH.
  reflexivity.
Qed.

Lemma Failure_names (id : string) (f : File) (w w' : World) (e : JSError) :
  Failure id f w e w' -> names f e.
Proof.
  intros [Hs|t e1 r e2 err _ _ _ _|t e1 r e2 _ _ _ _ _]; unfold names; simpl.
  - exists "Arquivo ", " excede o limite de 50MB". reflexivity.
  - exists "Erro ao fazer upload do arquivo ", (": " +:+ message err).
    reflexivity.
  - exists "Upload não retornou um caminho válido para ", "".
    rewrite append_empty_r. reflexivity.
Qed.

(** The loop over a concatenation is the loop over the first part, then
    over the second from where the first stopped. *)
Lemma uploadEach_app (id : string) (l1 l2 : list File) (acc : list string)
    (w : World) :
  uploadEach id (l1 ++ l2) acc w =
  match uploadEach id l1 acc w with
  | (Return acc', w1) => uploadEach id l2 acc' w1
  | (Throw e, w1) => (Throw e, w1)
  end.
Proof.
  revert acc w. induction l1 as [|f l1 IH]; intros acc w; [reflexivity|].
  simpl. unfold bind. destruct (uploadOne id f w) as [[p|e] w1]; [|reflexivity].
  apply IH.
Qed.

Lemma uploadedFiles_app (l1 l2 : list Call) :
  uploadedFiles (l1 ++ l2) = uploadedFiles l1 ++ uploadedFiles l2.
Proof. apply omap_app. Qed.

Lemma uploadedFiles_uploadCalls (id : string) (files : list File)
    (steps : list (N * string)) :
  length steps = length files ->
  uploadedFiles (concat (zip_with (uploadCalls id) files steps)) = files.
Proof.
  revert steps. induction files as [|f files IH]; intros [|s steps] Hlen;
    try discriminate; [reflexivity|].
  simpl. f_equal. apply IH. simpl in Hlen. lia.
Qed.

(** A loop that returns has made, for each file in turn, one clock read
    and one upload call that stored the file; it returns the paths the
    service answered, after those it started with. *)
Lemma uploadEach_returns (id : string) (files : list File)
    (acc paths : list string) (w w' : World) :
  uploadEach id files acc w = (Return paths, w') ->
  exists steps : list (N * string),
    length steps = length files /\
    paths = acc ++ steps.*2 /\
    calls w' = calls w ++ concat (zip_with (uploadCalls id) files steps) /\
    state w' = state w /\
    Forall (fun f => (file_size f <= 50 * 1024 * 1024)%N) files.
Proof.
  revert acc w. induction files as [|f files IH]; intros acc w.
  - intros [= <- <-]. exists []. simpl. rewrite !app_nil_r. auto.
  - simpl. unfold bind. rewrite uploadOne_unfold.
    destruct (N.ltb_spec (50 * 1024 * 1024) (file_size f)) as [Hs|Hs];
      [discriminate|].
    destruct (env_now (env w)) as [t e1].
    destruct (env_upload _ _ f _ e1) as [r e2].
    unfold verdict. destruct r as [[[p]|] [err|]]; simpl; try discriminate.
    destruct (truthy p); [|discriminate].
    intros Hrest. destruct (IH _ _ Hrest) as (steps & Hlen & Hp & Hc & Hst & Hsz).
    exists ((t, p) :: steps). simpl in *.
    split; [lia|]. split; [rewrite Hp, <- app_assoc; reflexivity|].
    split; [rewrite Hc, <- app_assoc; reflexivity|].
    split; [exact Hst|]. constructor; assumption.
Qed.

(** With an owner id, a call that returns is the loop that returns. *)
Lemma uploadFiles_returns (profile : option Profile) (id : string)
    (files : list File) (paths : list string) (w w' : World) :
  profileId profile = Some id -> truthy id = true ->
  uploadFiles profile files w = (Return paths, w') <->
  uploadEach id files [] w = (Return paths, w').
Proof.
  intros Hid Ht. unfold uploadFiles. rewrite Hid, Ht. simpl.
  destruct files as [|f files]; [reflexivity|]. simpl.
  unfold tryCatch, throw.
  destruct (bind _ _ w) as [[a|e] w1]; split; congruence.
Qed.

(** With an owner id, a loop that throws makes the call throw the same
    error and leave the same world. *)
Lemma uploadFiles_throws (profile : option Profile) (id : string)
    (files : list File) (e : JSError) (w w' : World) :
  profileId profile = Some id -> truthy id = true ->
  uploadEach id files [] w = (Throw e, w') ->
  uploadFiles profile files w = (Throw e, w').
Proof.
  intros Hid Ht. unfold uploadFiles. rewrite Hid, Ht. simpl.
  destruct files as [|f files]; [discriminate|]. simpl.
  unfold tryCatch, throw. intros ->. reflexivity.
Qed.

(** The loop on a list whose first failing file is [b]. *)
Lemma uploadEach_first_failure (id : string) (pre : list File) (b : File)
    (post : list File) (paths : list string) (e : JSError) (w w1 w2 : World) :
  uploadEach id pre [] w = (Return paths, w1) ->
  Failure id b w1 e w2 ->
  uploadEach id (pre ++ b :: post) [] w = (Throw e, w2).
Proof.
  intros Hpre Hfail. rewrite uploadEach_app, Hpre. simpl. unfold bind.
  apply uploadOne_throws in Hfail. rewrite Hfail. reflexivity.
Qed.

(** A loop that returns handed its files, in order, to the service. *)
Lemma uploadEach_uploadedFiles (id : string) (files : list File)
    (acc paths : list string) (w w' : World) :
  uploadEach id files acc w = (Return paths, w') ->
  uploadedFiles (calls w') = uploadedFiles (calls w) ++ files.
Proof.
  intros Hrun.
  destruct (uploadEach_returns _ _ _ _ _ _ Hrun)
    as (steps & Hlen & _ & Hc & _ & _).
  rewrite Hc, uploadedFiles_app, uploadedFiles_uploadCalls by exact Hlen.
  reflexivity.
Qed.

(** C2. With an owner id: when the files before [b] upload (leaving the
    world [w1]) and [b] then fails, by its size, by an error of the
    storage service or by an answer without a path, the call throws the
    error of [b], whose message names [b], and returns no path.  The
    world it leaves is the one [b]'s failed attempt left: the uploads
    of the files before [b] were made one by one in input order and
    stay as they are, [b] was handed to the service at most once, and
    nothing was done for the files after [b]. *)
Theorem uploadFiles_stops_at_first_failure (profile : option Profile)
    (id : string) (pre : list File) (b : File) (post : list File)
    (paths : list string) (e : JSError) (w w1 w2 : World) :
  profileId profile = Some id -> truthy id = true ->
  uploadFiles profile pre w = (Return paths, w1) ->
  Failure id b w1 e w2 ->
  uploadFiles profile (pre ++ b :: post) w = (Throw e, w2) /\
  names b e /\
  uploadedFiles (calls w1) = uploadedFiles (calls w) ++ pre /\
  (uploadedFiles (calls w2) = uploadedFiles (calls w) ++ pre \/
   uploadedFiles (calls w2) = uploadedFiles (calls w) ++ pre ++ [b]).
Proof.
  intros Hid Ht Hpre Hfail.
  apply (uploadFiles_returns _ _ _ _ _ _ Hid Ht) in Hpre.
  pose proof (uploadEach_uploadedFiles _ _ _ _ _ _ Hpre) as Hw1.
  split; [|split; [|split]].
  - apply (uploadFiles_throws _ _ _ _ _ _ Hid Ht).
    eapply uploadEach_first_failure; eassumption.
  - eapply Failure_names, Hfail.
  - exact Hw1.
  - destruct Hfail; [left; exact Hw1|right|right];
      unfold afterAttempt; simpl; rewrite uploadedFiles_app, Hw1;
      simpl; rewrite <- app_assoc; reflexivity.
Qed.

(** C5. With an owner id: when the files before [b] upload (leaving the
    world [w1]) and [b] is larger than 50 MiB, the call throws an error
    whose message names [b] and leaves the world [w1]: no clock was
    read and no upload call was made for [b], and [b] is not among the
    files handed to the storage service by this call. *)
Theorem uploadFiles_rejects_oversize (profile : option Profile)
    (id : string) (pre : list File) (b : File) (post : list File)
    (paths : list string) (w w1 : World) :
  profileId profile = Some id -> truthy id = true ->
  uploadFiles profile pre w = (Return paths, w1) ->
  (50 * 1024 * 1024 < file_size b)%N ->
  let e := newError ("Arquivo " +:+ file_name b
                     +:+ " excede o limite de 50MB") in
  uploadFiles profile (pre ++ b :: post) w = (Throw e, w1) /\
  names b e /\
  uploadedFiles (calls w1) = uploadedFiles (calls w) ++ pre /\
  b ∉ pre.
Proof.
  intros Hid Ht Hpre Hsize e.
  assert (Failure id b w1 e w1) as Hfail by (constructor; exact Hsize).
  apply (uploadFiles_returns _ _ _ _ _ _ Hid Ht) in Hpre.
  split; [|split; [|split]].
  - apply (uploadFiles_throws _ _ _ _ _ _ Hid Ht).
    eapply uploadEach_first_failure; eassumption.
  - eapply Failure_names, Hfail.
  - eapply uploadEach_uploadedFiles, Hpre.
  - destruct (uploadEach_returns _ _ _ _ _ _ Hpre)
      as (_ & _ & _ & _ & _ & Hsz).
    intros Hin. rewrite Forall_forall in Hsz. specialize (Hsz _ Hin). lia.
Qed.

Lemma neverOverwrites_uploadCalls (id : string) (files : list File)
    (steps : list (N * string)) :
  neverOverwrites (concat (zip_with (uploadCalls id) files steps)).
Proof.
  revert steps. induction files as [|f files IH]; intros [|s steps];
    try constructor; simpl; auto.
  constructor; [split; reflexivity|]. apply IH.
Qed.

(** C7. With an owner id, a call that returns has made, for each file
    in input order, one clock read and one upload call, under the key
    made of the owner id, a slash, the timestamp just read, a dash and
    the file's name, with [upsert] off, so that the service refuses a
    key that exists; the paths returned are the paths the service
    answered, one per file, in the order of the files. *)
Theorem uploadFiles_paths_in_order (profile : option Profile) (id : string)
    (files : list File) (paths : list string) (w w' : World) :
  profileId profile = Some id -> truthy id = true ->
  uploadFiles profile files w = (Return paths, w') ->
  exists steps : list (N * string),
    length steps = length files /\
    paths = steps.*2 /\
    calls w' = calls w ++ concat (zip_with (uploadCalls id) files steps) /\
    uploadedFiles (calls w') = uploadedFiles (calls w) ++ files /\
    neverOverwrites (concat (zip_with (uploadCalls id) files steps)).
Proof.
  intros Hid Ht Hrun.
  apply (uploadFiles_returns _ _ _ _ _ _ Hid Ht) in Hrun.
  destruct (uploadEach_returns _ _ _ _ _ _ Hrun)
    as (steps & Hlen & Hp & Hc & _ & _).
  exists steps. split; [exact Hlen|]. split; [exact Hp|].
  split; [exact Hc|]. split.
  - eapply uploadEach_uploadedFiles, Hrun.
  - apply neverOverwrites_uploadCalls.
Qed.

(** C8. On an empty list of files the call returns an empty list of
    paths and leaves the world as it was: no error, no call. *)
Theorem uploadFiles_empty (profile : option Profile) (w : World) :
  uploadFiles profile [] w = (Return [], w).
Proof.
  unfold uploadFiles. destruct (profileId profile) as [id|]; [|reflexivity].
  simpl. rewrite orb_true_r. reflexivity.
Qed.

(** C10. Without an owner id (no profile, or a profile whose id is the
    empty string) the call returns an empty list of paths and leaves
    the world as it was, whatever the files: no error, no upload. *)
Theorem uploadFiles_without_owner (profile : option Profile)
    (files : list File) (w : World) :
  profileId profile = None \/ profileId profile = Some "" ->
  files <> [] ->
  uploadFiles profile files w = (Return [], w).
Proof.
  intros [Hid|Hid] _; unfold uploadFiles; rewrite Hid; reflexivity.
Qed.

End WithServices.
End UploadFacts.

(** ** The upload loop on the in-memory service *)

Module UploadScenarios.
Import Platform Effects Upload UploadFacts InMemory.

#[local] Open Scope list_scope.

Lemma uploadFiles_stops_at_first_failure_witness :
  exists e w2,
    uploadFiles owner ([nota] ++ nota :: [recibo]) (start 1700000000000 0)
    = (Throw e, w2) /\
    names nota e /\
    uploadedFiles (calls w2) = [nota; nota] /\
    bucket (env w2) !! "u1/1700000000000-nota.pdf" = Some nota.
Proof.
  destruct (uploadFiles_stops_at_first_failure owner "u1" [nota] nota [recibo]
              ["u1/1700000000000-nota.pdf"]
              (newError ("Erro ao fazer upload do arquivo nota.pdf: "
                         +:+ "The resource already exists"))
              (start 1700000000000 0)
              (uploadFiles owner [nota] (start 1700000000000 0)).2
              (uploadFiles owner [nota; nota] (start 1700000000000 0)).2
              eq_refl eq_refl eq_refl)
    as (Hrun & Hnames & _ & _).
  - apply uploadOne_throws. vm_compute. reflexivity.
  - eexists _, _. split; [exact Hrun|]. split; [exact Hnames|].
    split; reflexivity.
Defined.

Lemma uploadFiles_rejects_oversize_witness :
  uploadFiles owner ([nota] ++ video :: [recibo]) (start 1700000000000 1)
  = (Throw (newError "Arquivo video.mp4 excede o limite de 50MB"),
     (uploadFiles owner [nota] (start 1700000000000 1)).2) /\
  uploadedFiles
    (calls (uploadFiles owner ([nota] ++ video :: [recibo])
              (start 1700000000000 1)).2)
  = [nota].
Proof.
  destruct (uploadFiles_rejects_oversize owner "u1" [nota] video [recibo]
              ["u1/1700000000000-nota.pdf"]
              (start 1700000000000 1)
              (uploadFiles owner [nota] (start 1700000000000 1)).2
              eq_refl eq_refl eq_refl)
    as (Hrun & _ & Hfiles & _).
  - vm_compute. reflexivity.
  - split; [exact Hrun|]. rewrite Hrun. exact Hfiles.
Defined.

Lemma uploadFiles_paths_in_order_witness :
  exists steps : list (N * string),
    length steps = 2%nat /\
    ["u1/1700000000000-nota.pdf"; "u1/1700000000001-recibo.pdf"] = steps.*2 /\
    calls (uploadFiles owner [nota; recibo] (start 1700000000000 1)).2
    = concat (zip_with (uploadCalls "u1") [nota; recibo] steps).
Proof.
  destruct (uploadFiles_paths_in_order owner "u1" [nota; recibo]
              ["u1/1700000000000-nota.pdf"; "u1/1700000000001-recibo.pdf"]
              (start 1700000000000 1)
              (uploadFiles owner [nota; recibo] (start 1700000000000 1)).2
              eq_refl eq_refl eq_refl)
    as (steps & Hlen & Hp & Hc & _).
  exists steps. split; [exact Hlen|]. split; [exact Hp|]. exact Hc.
Defined.

Lemma uploadFiles_without_owner_witness :
  uploadFiles None [nota; recibo] (start 1700000000000 1)
  = (Return [], start 1700000000000 1).
Proof.
  apply (uploadFiles_without_owner None [nota; recibo]).
  - left. reflexivity.
  - discriminate.
Defined.

(** Two files of 1 MiB on a clock that ticks, call by call. *)
Example uploadFiles_two_files :
  calls (uploadFiles owner [nota; recibo] (start 1700000000000 1)).2
  = [CallDateNow 1700000000000;
     CallStorageUpload "request-attachments" "u1/1700000000000-nota.pdf" nota
       {| cacheControl := "3600"; upsert := false |}
       (stored "u1/1700000000000-nota.pdf");
     CallDateNow 1700000000001;
     CallStorageUpload "request-attachments" "u1/1700000000001-recibo.pdf"
       recibo {| cacheControl := "3600"; upsert := false |}
       (stored "u1/1700000000001-recibo.pdf")].
Proof. vm_compute. reflexivity. Qed.

(** A second upload to the key of the first is refused by the service,
    and the call throws; the first file stays in the bucket. *)
Example uploadFiles_same_key_refused :
  (uploadFiles owner [nota; nota] (start 1700000000000 0)).1
  = Throw (newError ("Erro ao fazer upload do arquivo nota.pdf: "
                     +:+ "The resource already exists")) /\
  bucket (env (uploadFiles owner [nota; nota] (start 1700000000000 0)).2)
  = {[ "u1/1700000000000-nota.pdf" := nota ]}.
Proof. split; vm_compute; reflexivity. Qed.

(** The second of three files is too large: the first is in the bucket,
    the caller gets the error alone, the third was never looked at. *)
Example uploadFiles_second_too_large :
  (uploadFiles owner [nota; video; recibo] (start 1700000000000 1)).1
  = Throw (newError "Arquivo video.mp4 excede o limite de 50MB") /\
  bucket (env (uploadFiles owner [nota; video; recibo]
                 (start 1700000000000 1)).2)
  = {[ "u1/1700000000000-nota.pdf" := nota ]}.
Proof. split; vm_compute; reflexivity. Qed.

End UploadScenarios.

(** ** The submit handler's properties *)

Module SubmitFacts.
Import Platform Effects Upload Submit.

#[local] Open Scope list_scope.

Section WithServices.
Context `{Services}.

Lemma onSubmit_no_id (profile : option Profile) (v : FormData) (w : World) :
  profileId profile = None \/ profileId profile = Some "" ->
  onSubmit profile v w =
  (Return tt,
   {| env := env w; state := state w;
      calls := calls w ++ [CallToast missingIdentityToast] |}).
Proof.
  intros [Hid|Hid]; unfold onSubmit; rewrite Hid; reflexivity.
Qed.

(** C6. Without a caller identity (no profile, or a profile whose id is
    the empty string) the submit handler shows the destructive toast
    "Usuário não encontrado" and returns: the services and the form
    are as they were and the toast is the only call.  Through the
    form's handler too, whatever the form holds, no call reaches the
    request service or the storage. *)
Theorem onSubmit_without_identity (profile : option Profile) (v : FormData)
    (w : World) :
  profileId profile = None \/ profileId profile = Some "" ->
  onSubmit profile v w =
    (Return tt,
     {| env := env w; state := state w;
        calls := calls w ++ [CallToast missingIdentityToast] |}) /\
  exists new,
    calls (handleSubmit profile w).2 = calls w ++ new /\
    Forall (fun c => isRemote c = false) new /\
    env (handleSubmit profile w).2 = env w.
Proof.
  intros Hid. split; [apply onSubmit_no_id, Hid|].
  unfold handleSubmit, bind, getState, modifyState.
  destruct (formSchema (values (state w))) as [|i issues].
  - rewrite (onSubmit_no_id _ _ _ Hid). simpl.
    exists [CallToast missingIdentityToast]. repeat split.
    constructor; [reflexivity|constructor].
  - simpl. exists []. rewrite app_nil_r. repeat split. constructor.
Qed.

End WithServices.
End SubmitFacts.

(** ** The submit handler on the in-memory service *)

Module SubmitScenarios.
Import Platform Effects Upload Submit SubmitFacts InMemory.

#[local] Open Scope list_scope.

Lemma onSubmit_without_identity_witness :
  onSubmit (Some {| profile_id := "" |}) filledValues (start 1700000000000 1)
  = (Return tt,
     {| env := env (start 1700000000000 1);
        state := state (start 1700000000000 1);
        calls := [CallToast missingIdentityToast] |}).
Proof.
  apply (proj1 (onSubmit_without_identity (Some {| profile_id := "" |})
                  filledValues (start 1700000000000 1)
                  (or_intror eq_refl))).
Defined.

End SubmitScenarios.

(** ** More on binary64 comparison *)

Section FloatOrderMore.

#[local] Open Scope float_scope.

Lemma SFcompare_refl (x : spec_float) :
  x <> S754_nan -> SFcompare x x = Some Eq.
Proof.
  destruct x as [s|s| |s m e]; simpl; intros Hx; try congruence.
  - destruct s; reflexivity.
  - destruct s; rewrite Z.compare_refl, Pos.compare_cont_refl; reflexivity.
Qed.

Lemma is_nan_true (x : float) : is_nan x = true -> Prim2SF x = S754_nan.
Proof.
  unfold is_nan. intros H. apply negb_true_iff in H.
  rewrite FloatAxioms.eqb_spec in H. unfold SFeqb in H.
  destruct (Prim2SF x) eqn:E; try reflexivity;
    rewrite SFcompare_refl in H by discriminate; discriminate.
Qed.

Lemma is_nan_false (x : float) : is_nan x = false -> Prim2SF x <> S754_nan.
Proof.
  unfold is_nan. intros H E. apply negb_false_iff in H.
  rewrite FloatAxioms.eqb_spec in H. unfold SFeqb in H. rewrite E in H. discriminate.
Qed.

Lemma ltb_leb (x y : float) : (x <? y) = true -> (x <=? y) = true.
Proof.
  rewrite ltb_spec, leb_spec. unfold SFltb, SFleb.
  destruct (SFcompare _ _) as [[ | | ]|]; congruence.
Qed.

Lemma leb_not_ltb (x y : float) : (x <=? y) = true -> (y <? x) = false.
Proof.
  rewrite ltb_spec, leb_spec. unfold SFltb, SFleb.
  destruct (SFcompare (Prim2SF x) (Prim2SF y)) as [[ | | ]|] eqn:E;
    try discriminate; rewrite (SFcompare_antisym _ _ _ E); reflexivity.
Qed.

Lemma ltb_not_eqb (x y : float) : (x <? y) = true -> (y =? x) = false.
Proof.
  rewrite ltb_spec, FloatAxioms.eqb_spec. unfold SFltb, SFeqb.
  destruct (SFcompare (Prim2SF x) (Prim2SF y)) as [[ | | ]|] eqn:E;
    try discriminate; rewrite (SFcompare_antisym _ _ _ E); reflexivity.
Qed.

Lemma eqb_not_ltb (x y : float) : (x =? y) = true -> (y <? x) = false.
Proof.
  rewrite ltb_spec, FloatAxioms.eqb_spec. unfold SFltb, SFeqb.
  destruct (SFcompare (Prim2SF x) (Prim2SF y)) as [[ | | ]|] eqn:E;
    try discriminate; rewrite (SFcompare_antisym _ _ _ E); reflexivity.
Qed.

(** Two numbers, neither a NaN, compare one way or the other. *)
Lemma not_leb_ltb (x y : float) :
  is_nan x = false -> is_nan y = false ->
  (x <=? y) = false -> (y <? x) = true.
Proof.
  intros Hx%is_nan_false Hy%is_nan_false.
  rewrite ltb_spec, leb_spec. unfold SFltb, SFleb.
  destruct (SFcompare (Prim2SF x) (Prim2SF y)) as [[ | | ]|] eqn:E;
    try discriminate.
  - rewrite (SFcompare_antisym _ _ _ E). reflexivity.
  - destruct (Prim2SF x), (Prim2SF y); simpl in E; congruence.
Qed.

Lemma nan_not_ltb (x y : float) : is_nan y = true -> (x <? y) = false.
Proof.
  intros Hy%is_nan_true. rewrite ltb_spec, Hy. unfold SFltb.
  destruct (Prim2SF x); reflexivity.
Qed.

End FloatOrderMore.

(** ** The suggestion box *)

Module SuggestionFacts.
Import Calculator Inputs.

#[local] Open Scope float_scope.

Lemma above_floor_positive (y : float) :
  (2018.36 <? y) = true -> (0 <? y) = true.
Proof.
  rewrite !ltb_spec.
  remember (Prim2SF 2018.36) as b eqn:Hb. vm_compute in Hb. subst b.
  change (Prim2SF 0) with (S754_zero false).
  destruct (Prim2SF y) as [[|]|[|]| |[|] m e]; unfold SFltb; simpl;
    intros H; try reflexivity; discriminate H.
Qed.

(** The three exits of [calculateReimbursement], for a number. *)
Lemma calculateReimbursement_cases (x : float) :
  is_nan x = false ->
  ((x <=? 0) = true /\ calculateReimbursement x = 0) \/
  ((0 <? x) = true /\ (x * 0.9 <=? 2018.36) = true /\
   calculateReimbursement x = 2018.36) \/
  ((0 <? x) = true /\ (2018.36 <? x * 0.9) = true /\
   calculateReimbursement x = x * 0.9).
Proof.
  intros Hx. unfold calculateReimbursement.
  change SALARY_PERCENTAGE with 0.9. change BASE_SALARY with 2018.36.
  destruct (x <=? 0) eqn:E; [left; auto|]. right.
  assert ((0 <? x) = true) as Hpos by (apply not_leb_ltb; auto).
  destruct (CalculatorFacts.percentage_comparable x Hpos) as [H|H].
  - left. cbv zeta. rewrite H. auto.
  - right. cbv zeta. rewrite (ltb_not_leb _ _ H). auto.
Qed.

(** What [watchSalary || 0] keeps: zero, or the number itself when it is
    a number other than zero. *)
Lemma orZero_cases (watchSalary : option float) :
  orZero watchSalary = 0 \/
  (watchSalary = Some (orZero watchSalary) /\
   is_nan (orZero watchSalary) = false /\
   (orZero watchSalary =? 0) = false).
Proof.
  destruct watchSalary as [x|]; [|left; reflexivity]. simpl.
  destruct (is_nan x) eqn:Hn; [left; reflexivity|].
  destruct (x =? 0) eqn:Hz; [left; reflexivity|]. simpl. right. auto.
Qed.

(** X1. The suggested amount is never a NaN and never an amount strictly
    between zero and the floor: it is 0 or at least 2018.36, whatever
    the salary field holds. *)
Theorem suggestedAmount_zero_or_floor (watchSalary : option float) :
  suggestedAmount watchSalary = 0 \/
  (2018.36 <=? suggestedAmount watchSalary) = true.
Proof.
  unfold suggestedAmount.
  destruct (orZero_cases watchSalary) as [->|(_ & Hn & _)];
    [left; reflexivity|].
  destruct (calculateReimbursement_cases _ Hn)
    as [[_ ->]|[(_ & _ & ->)|(_ & H & ->)]].
  - left. reflexivity.
  - right. reflexivity.
  - right. apply ltb_leb, H.
Qed.

(** The suggestion is above zero exactly for a salary above zero. *)
Lemma suggestedAmount_positive (watchSalary : option float) :
  (0 <? suggestedAmount watchSalary)
  = match watchSalary with
    | Some x => 0 <? x
    | None => false
    end.
Proof.
  unfold suggestedAmount.
  destruct watchSalary as [x|]; [|reflexivity]. simpl.
  destruct (is_nan x) eqn:Hn.
  { simpl. symmetry. apply nan_not_ltb, Hn. }
  destruct (x =? 0) eqn:Hz.
  { simpl. symmetry. apply eqb_not_ltb, Hz. }
  simpl.
  destruct (calculateReimbursement_cases _ Hn)
    as [[H ->]|[(H & _ & ->)|(H & Hm & ->)]].
  - rewrite (leb_not_ltb _ _ H). reflexivity.
  - rewrite H. reflexivity.
  - rewrite H. apply above_floor_positive, Hm.
Qed.

(** For a salary above zero, the suggestion is the floor exactly when
    90% of the salary is at most the floor, and 90% of the salary when
    it is not the floor. *)
Lemma suggestedAmount_floor (x : float) :
  (0 <? x) = true ->
  (suggestedAmount (Some x) =? 2018.36) = (x * 0.9 <=? 2018.36) /\
  ((suggestedAmount (Some x) =? 2018.36) = false ->
   suggestedAmount (Some x) = x * 0.9 /\ (2018.36 <? x * 0.9) = true).
Proof.
  intros Hpos. unfold suggestedAmount. simpl.
  assert (is_nan x = false) as Hn.
  { destruct (is_nan x) eqn:Hn; [|reflexivity].
    rewrite (nan_not_ltb 0 x Hn) in Hpos. discriminate. }
  rewrite Hn, (ltb_not_eqb _ _ Hpos). simpl.
  destruct (calculateReimbursement_cases _ Hn)
    as [[H _]|[(_ & Hm & ->)|(_ & Hm & ->)]].
  - rewrite (leb_not_ltb _ _ H) in Hpos. discriminate.
  - rewrite Hm. split; [reflexivity|discriminate].
  - rewrite (ltb_not_leb _ _ Hm), (ltb_not_eqb _ _ Hm). auto.
Qed.

(** X2. The box with the suggestion is displayed exactly when the panel
    of the calculator is open and the salary field holds a number above
    zero. *)
Theorem showsSuggestion_iff_positive (showCalculator : bool)
    (watchSalary : option float) :
  showsSuggestion showCalculator watchSalary
  = showCalculator && match watchSalary with
                      | Some x => 0 <? x
                      | None => false
                      end.
Proof.
  unfold showsSuggestion. rewrite suggestedAmount_positive. reflexivity.
Qed.

(** X3. The label of the floor is displayed exactly when the panel of
    the calculator is open, the salary is above zero and 90% of it is
    at most the floor.  When the label of the percentage is displayed,
    the panel is open and the suggestion is 90% of the salary, which is
    above the floor. *)
Theorem showsFloorLabel_iff_floor (showCalculator : bool)
    (watchSalary : option float) :
  showsFloorLabel showCalculator watchSalary
  = showCalculator && match watchSalary with
                      | Some x => (0 <? x) && (x * 0.9 <=? 2018.36)
                      | None => false
                      end /\
  (showsPercentageLabel showCalculator watchSalary = true ->
   showCalculator = true /\
   exists x, watchSalary = Some x /\
             suggestedAmount watchSalary = x * 0.9 /\
             (2018.36 <? x * 0.9) = true).
Proof.
  unfold showsFloorLabel, showsPercentageLabel, showsSuggestion.
  rewrite suggestedAmount_positive. change BASE_SALARY with 2018.36.
  destruct showCalculator; simpl; [|split; [reflexivity|discriminate]].
  destruct watchSalary as [x|]; [|split; [reflexivity|discriminate]].
  destruct (0 <? x) eqn:Hpos; simpl; [|split; [reflexivity|discriminate]].
  destruct (suggestedAmount_floor x Hpos) as [Heq Hpct].
  split; [exact Heq|].
  intros Hshown. apply negb_true_iff in Hshown.
  destruct (Hpct Hshown) as [Hs Hm]. split; [reflexivity|].
  exists x. auto.
Qed.

Lemma showsFloorLabel_iff_floor_witness :
  showsFloorLabel true (Some 1500) = true /\
  suggestedAmount (Some 3000) = 3000 * 0.9.
Proof.
  split.
  - rewrite (proj1 (showsFloorLabel_iff_floor true (Some 1500))).
    reflexivity.
  - destruct (proj2 (showsFloorLabel_iff_floor true (Some 3000)) eq_refl)
      as (_ & x & Hx & Hs & _).
    injection Hx as <-. exact Hs.
Defined.

End SuggestionFacts.

(** ** More on the dependent list editor *)

Module EditorFacts.
Import Dependents Inputs DependentsFacts.

#[local] Open Scope list_scope.

Lemma removeDependent_removeFrom (dependents : list Slot) (index : Z) :
  removeDependent dependents index = removeFrom 0 index dependents.
Proof. reflexivity. Qed.

Lemma removeFrom_cons (k : nat) (index : Z) (x : Slot) (l : list Slot) :
  removeFrom k index (x :: l) =
  match x with
  | Empty => []
  | _ => if (Z.of_nat k =? index)%Z then [] else [x]
  end ++ removeFrom (S k) index l.
Proof.
  unfold removeFrom. rewrite imap_cons. simpl omap.
  rewrite Nat.add_0_r.
  rewrite (imap_ext (_ ∘ S) (fun i s => (S k + i, s)%nat))
    by (intros i y _; simpl; f_equal; lia).
  destruct x; [reflexivity| |]; destruct (Z.of_nat k =? index)%Z; reflexivity.
Qed.

Lemma removeFrom_above (k : nat) (index : Z) (l : list Slot) :
  (index < Z.of_nat k)%Z -> Forall (fun s => s <> Empty) l ->
  removeFrom k index l = l.
Proof.
  intros Hk Hl. revert k Hk.
  induction Hl as [|x l Hx _ IH]; intros k Hk; [reflexivity|].
  rewrite removeFrom_cons, IH by lia.
  destruct (Z.eqb_spec (Z.of_nat k) index); [lia|].
  destruct x; [congruence|reflexivity|reflexivity].
Qed.

Lemma removeFrom_delete (k : nat) (index : Z) (l : list Slot) :
  (Z.of_nat k <= index)%Z -> Forall (fun s => s <> Empty) l ->
  removeFrom k index l = delete (Z.to_nat index - k)%nat l.
Proof.
  intros Hk Hl. revert k Hk.
  induction Hl as [|x l Hx Hl IH]; intros k Hk; [reflexivity|].
  rewrite removeFrom_cons.
  destruct (Z.eqb_spec (Z.of_nat k) index) as [<-|Hne].
  - rewrite removeFrom_above by (assumption || lia).
    rewrite Nat2Z.id, Nat.sub_diag. destruct x; [congruence| |]; reflexivity.
  - rewrite IH by lia.
    replace (Z.to_nat index - k)%nat with (S (Z.to_nat index - S k)) by lia.
    destruct x; [congruence| |]; reflexivity.
Qed.

Lemma removeFrom_dense (k : nat) (index : Z) (l : list Slot) :
  Forall (fun s => s <> Empty) (removeFrom k index l) /\
  (length (removeFrom k index l) <= length l)%nat.
Proof.
  revert k. induction l as [|x l IH]; intros k.
  - split; [constructor|reflexivity].
  - rewrite removeFrom_cons. destruct (IH (S k)) as [IH1 IH2].
    destruct x; simpl; [split; [assumption|lia]| |];
      destruct (Z.of_nat k =? index)%Z; simpl;
      (split; [try constructor; try assumption; discriminate|lia]).
Qed.

Lemma complete_not_empty (l : list Slot) :
  Forall complete l -> Forall (fun s => s <> Empty) l.
Proof.
  intros H. eapply Forall_impl; [exact H|]. intros s Hs ->. exact Hs.
Qed.

Lemma spread_no_hole (l : list Slot) :
  Forall (fun s => s <> Empty) (spread l).
Proof.
  unfold spread. apply Forall_fmap, Forall_true. intros []; discriminate.
Qed.

Lemma delete_past_end {A} (l : list A) (i : nat) :
  (length l <= i)%nat -> delete i l = l.
Proof.
  intros H. rewrite delete_take_drop, take_ge, drop_ge by lia.
  apply app_nil_r.
Qed.

(** X4. On a list without holes, [removeDependent] deletes the position
    [index] and keeps the others in order; an index that is negative or
    at or past the end leaves the list as it is. *)
Theorem removeDependent_deletes (dependents : list Slot) (index : Z) :
  Forall (fun s => s <> Empty) dependents ->
  ((0 <= index)%Z ->
     removeDependent dependents index
     = take (Z.to_nat index) dependents
       ++ drop (S (Z.to_nat index)) dependents) /\
  ((index < 0 \/ Z.of_nat (length dependents) <= index)%Z ->
     removeDependent dependents index = dependents).
Proof.
  intros Hd. rewrite removeDependent_removeFrom. split.
  - intros Hi. rewrite removeFrom_delete by (assumption || simpl; lia).
    rewrite Nat.sub_0_r. apply delete_take_drop.
  - intros [Hi|Hi].
    + apply removeFrom_above; [simpl; lia|assumption].
    + rewrite removeFrom_delete by (assumption || simpl; lia).
      apply delete_past_end. lia.
Qed.

Lemma removeDependent_deletes_witness :
  removeDependent
    [Obj {| name := Some "Ana"; relationship := Some "filha" |};
     Obj {| name := Some "Rui"; relationship := Some "filho" |}] 0
  = [Obj {| name := Some "Rui"; relationship := Some "filho" |}] /\
  removeDependent
    [Obj {| name := Some "Ana"; relationship := Some "filha" |}] 5
  = [Obj {| name := Some "Ana"; relationship := Some "filha" |}].
Proof.
  split.
  - apply (proj1 (removeDependent_deletes
                    [Obj {| name := Some "Ana"; relationship := Some "filha" |};
                     Obj {| name := Some "Rui"; relationship := Some "filho" |}]
                    0 ltac:(repeat constructor; discriminate))).
    lia.
  - apply (proj2 (removeDependent_deletes
                    [Obj {| name := Some "Ana"; relationship := Some "filha" |}]
                    5 ltac:(repeat constructor; discriminate))).
    right. simpl. lia.
Defined.

(** X5. Whatever the list and the index, [removeDependent] returns a list
    without holes that is no longer than the one it was given. *)
Theorem removeDependent_dense (dependents : list Slot) (index : Z) :
  Forall (fun s => s <> Empty) (removeDependent dependents index) /\
  (length (removeDependent dependents index) <= length dependents)%nat.
Proof. rewrite removeDependent_removeFrom. apply removeFrom_dense. Qed.

(** X6. Removing the entry that [addDependent] has just appended gives back
    the list (with its holes, if it had any, read as [undefined]). *)
Theorem removeDependent_addDependent (dependents : list Slot) :
  removeDependent (addDependent dependents) (Z.of_nat (length dependents))
  = spread dependents.
Proof.
  rewrite removeDependent_removeFrom, removeFrom_delete.
  - rewrite Nat2Z.id, Nat.sub_0_r. unfold addDependent.
    rewrite <- (length_spread dependents). rewrite delete_middle.
    apply app_nil_r.
  - simpl. lia.
  - unfold addDependent. apply Forall_app. split; [apply spread_no_hole|].
    repeat constructor. discriminate.
Qed.

Lemma spread_spread (l : list Slot) : spread (spread l) = spread l.
Proof.
  unfold spread. rewrite <- list_fmap_compose. apply list_fmap_ext.
  intros _ [] _; reflexivity.
Qed.

Lemma spread_insert_obj (l : list Slot) (i : nat) (d : Dependent) :
  spread (<[i := Obj d]> l) = <[i := Obj d]> (spread l).
Proof. unfold spread. rewrite list_fmap_insert. reflexivity. Qed.

Lemma getIndex_spread (l : list Slot) (index : Z) :
  getIndex (spread l) index = getIndex l index.
Proof.
  unfold getIndex, spread. destruct (isArrayIndex index); [|reflexivity].
  rewrite list_lookup_fmap. destruct (l !! Z.to_nat index) as [[]|];
    reflexivity.
Qed.

Lemma getIndex_insert (l : list Slot) (i j : nat) (d : Dependent) :
  (i < length l)%nat -> (Z.of_nat j < MAX_ARRAY_LENGTH)%Z ->
  getIndex (<[i := Obj d]> l) (Z.of_nat j)
  = if decide (i = j) then Obj d else getIndex l (Z.of_nat j).
Proof.
  intros Hi Hj. unfold getIndex, isArrayIndex.
  destruct (Z.leb_spec 0 (Z.of_nat j)); [|lia].
  destruct (Z.ltb_spec (Z.of_nat j) MAX_ARRAY_LENGTH); [|lia].
  simpl. rewrite Nat2Z.id. destruct (decide (i = j)) as [->|Hne].
  - rewrite list_lookup_insert_eq by assumption. reflexivity.
  - rewrite list_lookup_insert_ne by assumption. reflexivity.
Qed.

(** In range, the update is one replacement in the copy of the list. *)
Lemma updateDependent_insert (dependents : list Slot) (i : nat)
    (field : DependentKey) (value : string) :
  (i < length dependents)%nat -> (Z.of_nat i < MAX_ARRAY_LENGTH)%Z ->
  updateDependent dependents (Z.of_nat i) field value
  = <[i := Obj (withField (spreadObject (getIndex dependents (Z.of_nat i)))
                  field value)]> (spread dependents).
Proof.
  intros Hi Hmax. rewrite updateDependent_in_range by assumption.
  rewrite getIndex_spread. reflexivity.
Qed.

Lemma fieldOf_withField (d : Dependent) (field other : DependentKey)
    (value : string) :
  fieldOf other (withField d field value)
  = if decide (other = field) then Some value else fieldOf other d.
Proof.
  destruct field, other; simpl;
    repeat (destruct (decide _); try congruence); reflexivity.
Qed.

(** X7. In range, [updateDependent] keeps the length, leaves every other
    position as it was (a hole read as [undefined]), and at [i] sets
    the named property to the value and keeps the other property. *)
Theorem updateDependent_touches_one (dependents : list Slot) (i : nat)
    (field : DependentKey) (value : string) :
  (i < length dependents)%nat -> (Z.of_nat i < MAX_ARRAY_LENGTH)%Z ->
  length (updateDependent dependents (Z.of_nat i) field value)
  = length dependents /\
  (forall j : nat, j <> i ->
     updateDependent dependents (Z.of_nat i) field value !! j
     = spread dependents !! j) /\
  exists d,
    updateDependent dependents (Z.of_nat i) field value !! i = Some (Obj d) /\
    fieldOf field d = Some value /\
    forall other, other <> field ->
      fieldOf other d
      = fieldOf other (spreadObject (getIndex dependents (Z.of_nat i))).
Proof.
  intros Hi Hmax. rewrite updateDependent_insert by assumption.
  split; [rewrite length_insert; apply length_spread|].
  split; [intros j Hj; apply list_lookup_insert_ne; congruence|].
  eexists. split.
  - apply list_lookup_insert_eq. rewrite length_spread. exact Hi.
  - split.
    + rewrite fieldOf_withField. destruct (decide _); congruence.
    + intros other Hne. rewrite fieldOf_withField.
      destruct (decide _); congruence.
Qed.

Lemma updateDependent_touches_one_witness :
  length (updateDependent
            [Obj {| name := Some "Ana"; relationship := Some "" |}; Undefined]
            0 Relationship "filha") = 2%nat /\
  updateDependent
    [Obj {| name := Some "Ana"; relationship := Some "" |}; Undefined]
    0 Relationship "filha" !! 0%nat
  = Some (Obj {| name := Some "Ana"; relationship := Some "filha" |}).
Proof.
  destruct (updateDependent_touches_one
              [Obj {| name := Some "Ana"; relationship := Some "" |};
               Undefined]
              0 Relationship "filha")
    as (Hlen & _ & _).
  - simpl. lia.
  - unfold MAX_ARRAY_LENGTH. simpl. lia.
  - split; [exact Hlen|reflexivity].
Defined.

(** X8. In range, of two updates of the same property of the same entry the
    second is the one that stays. *)
Theorem updateDependent_last_wins (dependents : list Slot) (i : nat)
    (field : DependentKey) (v1 v2 : string) :
  (i < length dependents)%nat -> (Z.of_nat i < MAX_ARRAY_LENGTH)%Z ->
  updateDependent (updateDependent dependents (Z.of_nat i) field v1)
    (Z.of_nat i) field v2
  = updateDependent dependents (Z.of_nat i) field v2.
Proof.
  intros Hi Hmax.
  rewrite (updateDependent_insert dependents) by assumption.
  rewrite updateDependent_insert
    by (rewrite ?length_insert, ?length_spread; assumption).
  rewrite spread_insert_obj, spread_spread, list_insert_insert_eq.
  rewrite getIndex_insert by (rewrite ?length_spread; assumption).
  destruct (decide (i = i)); [|congruence]. simpl.
  rewrite (updateDependent_insert dependents) by assumption.
  f_equal. f_equal. destruct field; reflexivity.
Qed.

Lemma updateDependent_last_wins_witness :
  updateDependent
    (updateDependent [Obj {| name := Some ""; relationship := Some "" |}]
       0 Name "An") 0 Name "Ana"
  = updateDependent [Obj {| name := Some ""; relationship := Some "" |}]
      0 Name "Ana".
Proof.
  apply (updateDependent_last_wins
           [Obj {| name := Some ""; relationship := Some "" |}] 0 Name).
  - simpl. lia.
  - unfold MAX_ARRAY_LENGTH. simpl. lia.
Defined.

(** X9. In range, two updates that differ in the entry or in the property
    give the same list in either order. *)
Theorem updateDependent_commutes (dependents : list Slot) (i j : nat)
    (f g : DependentKey) (v u : string) :
  (i < length dependents)%nat -> (j < length dependents)%nat ->
  (Z.of_nat (length dependents) <= MAX_ARRAY_LENGTH)%Z ->
  i <> j \/ f <> g ->
  updateDependent (updateDependent dependents (Z.of_nat i) f v)
    (Z.of_nat j) g u
  = updateDependent (updateDependent dependents (Z.of_nat j) g u)
      (Z.of_nat i) f v.
Proof.
  intros Hi Hj Hmax Hdiff.
  rewrite (updateDependent_insert dependents i) by (assumption || lia).
  rewrite (updateDependent_insert dependents j) by (assumption || lia).
  rewrite !updateDependent_insert
    by (rewrite ?length_insert, ?length_spread; assumption || lia).
  rewrite !spread_insert_obj, !spread_spread.
  rewrite !getIndex_insert by (rewrite ?length_spread; assumption || lia).
  rewrite !getIndex_spread.
  destruct (decide (i = j)) as [->|Hne].
  - destruct (decide (j = j)); [|congruence]. simpl.
    rewrite !list_insert_insert_eq. f_equal. f_equal.
    destruct Hdiff as [?|Hfg]; [congruence|].
    destruct f, g; try congruence; reflexivity.
  - destruct (decide (j = i)); [congruence|].
    apply list_insert_insert_ne. congruence.
Qed.

Lemma updateDependent_commutes_witness :
  updateDependent
    (updateDependent [Obj {| name := Some ""; relationship := Some "" |}]
       0 Name "Ana") 0 Relationship "filha"
  = updateDependent
      (updateDependent [Obj {| name := Some ""; relationship := Some "" |}]
         0 Relationship "filha") 0 Name "Ana".
Proof.
  apply (updateDependent_commutes
           [Obj {| name := Some ""; relationship := Some "" |}]
           0 0 Name Relationship).
  - simpl. lia.
  - simpl. lia.
  - unfold MAX_ARRAY_LENGTH. simpl. lia.
  - right. discriminate.
Defined.

Lemma complete_withField (s : Slot) (field : DependentKey) (value : string) :
  complete s -> complete (Obj (withField (spreadObject s) field value)).
Proof.
  destruct s as [| |[[n|] [r|]]]; simpl; try contradiction.
  destruct field; exact (fun H => H).
Qed.

(** X10. The editor keeps a list of complete dependents complete: after
    [addDependent], after [removeDependent] at any index, and after
    [updateDependent] at an index of the list. *)
Theorem editor_keeps_complete (dependents : list Slot) :
  Forall complete dependents ->
  Forall complete (addDependent dependents) /\
  (forall index, Forall complete (removeDependent dependents index)) /\
  (forall (i : nat) field value,
     (i < length dependents)%nat -> (Z.of_nat i < MAX_ARRAY_LENGTH)%Z ->
     Forall complete (updateDependent dependents (Z.of_nat i) field value)).
Proof.
  intros Hc. pose proof (complete_not_empty _ Hc) as Hd.
  split; [|split].
  - unfold addDependent. rewrite spread_dense by exact Hd.
    apply Forall_app. split; [exact Hc|]. repeat constructor.
  - intros index. rewrite removeDependent_removeFrom.
    destruct (Z.lt_ge_cases index 0).
    + rewrite removeFrom_above by (assumption || simpl; lia). exact Hc.
    + rewrite removeFrom_delete by (assumption || simpl; lia).
      apply Forall_delete, Hc.
  - intros i field value Hi Hmax.
    rewrite updateDependent_insert, spread_dense by assumption.
    apply Forall_insert; [exact Hc|].
    destruct (lookup_lt_is_Some_2 _ _ Hi) as [s Hs].
    assert (getIndex dependents (Z.of_nat i) = s) as ->.
    { pose proof (Forall_lookup_1 _ _ _ _ Hc Hs) as Hcs.
      unfold getIndex, isArrayIndex.
      destruct (Z.leb_spec 0 (Z.of_nat i)); [|lia].
      destruct (Z.ltb_spec (Z.of_nat i) MAX_ARRAY_LENGTH); [|lia].
      simpl. rewrite Nat2Z.id, Hs.
      destruct s; simpl in Hcs; try contradiction. reflexivity. }
    apply complete_withField. exact (Forall_lookup_1 _ _ _ _ Hc Hs).
Qed.

Lemma editor_keeps_complete_witness :
  Forall complete
    (addDependent [Obj {| name := Some "Ana"; relationship := Some "filha" |}]).
Proof.
  apply (editor_keeps_complete
           [Obj {| name := Some "Ana"; relationship := Some "filha" |}]).
  repeat constructor.
Defined.

End EditorFacts.

(** ** More on the upload loop *)

Module UploadMore.
Import Platform Effects Upload UploadFacts Traces.

#[local] Open Scope list_scope.

Section WithServices.
Context `{Services}.

(** One file, whatever the outcome: the form is untouched and the calls
    are none, or one clock read and one upload of the file. *)
Lemma uploadOne_calls (id : string) (f : File) (w : World) :
  state (uploadOne id f w).2 = state w /\
  exists new,
    calls (uploadOne id f w).2 = calls w ++ new /\
    Forall storageOnly new /\
    (uploadedFiles new = [] \/ uploadedFiles new = [f]).
Proof.
  rewrite uploadOne_unfold.
  destruct (_ <? _)%N.
  - split; [reflexivity|]. exists []. rewrite app_nil_r. auto.
  - destruct (env_now (env w)) as [t e1].
    destruct (env_upload _ _ f _ e1) as [r e2]. simpl.
    split; [reflexivity|]. eexists. split; [reflexivity|].
    split; [repeat constructor|right; reflexivity].
Qed.

Lemma uploadEach_calls (id : string) (files : list File) (acc : list string)
    (w : World) :
  state (uploadEach id files acc w).2 = state w /\
  exists new,
    calls (uploadEach id files acc w).2 = calls w ++ new /\
    Forall storageOnly new /\
    uploadedFiles new `prefix_of` files.
Proof.
  revert acc w. induction files as [|f files IH]; intros acc w.
  - split; [reflexivity|]. exists []. simpl. rewrite app_nil_r.
    split; [reflexivity|]. split; [constructor|]. apply prefix_nil.
  - simpl. unfold bind.
    destruct (uploadOne_calls id f w) as (Hs & new & Hc & Hall & Hf).
    pose proof (uploadOne_throws id f w) as Hthrow.
    destruct (uploadOne id f w) as [[p|e] w1] eqn:Hone; simpl in *.
    + destruct (IH (acc ++ [p]) w1) as (Hs' & new' & Hc' & Hall' & Hf').
      split; [congruence|]. exists (new ++ new').
      split; [rewrite Hc', Hc, app_assoc; reflexivity|].
      split; [apply Forall_app; auto|].
      rewrite uploadedFiles_app.
      destruct Hf as [Hf|Hf]; rewrite Hf.
      * exfalso. rewrite uploadOne_unfold in Hone.
        destruct (_ <? _)%N; [discriminate|].
        destruct (env_now (env w)) as [t e1].
        destruct (env_upload _ _ f _ e1) as [r e2].
        injection Hone as _ <-. unfold afterAttempt in Hc. simpl in Hc.
        apply app_inv_head in Hc. subst new. discriminate Hf.
      * simpl. apply prefix_cons, Hf'.
    + split; [exact Hs|]. exists new. split; [exact Hc|].
      split; [exact Hall|].
      destruct Hf as [Hf|Hf]; rewrite Hf;
        [apply prefix_nil|apply prefix_cons, prefix_nil].
Qed.

(** X11. Whatever the profile, the files and the outcome, [uploadFiles]
    leaves the form's state as it was and calls nothing but the clock
    and the storage; the files it hands to the storage are the first
    files of its list, in order, each at most once. *)
Theorem uploadFiles_only_storage (profile : option Profile)
    (files : list File) (w : World) :
  state (uploadFiles profile files w).2 = state w /\
  exists new,
    calls (uploadFiles profile files w).2 = calls w ++ new /\
    Forall storageOnly new /\
    uploadedFiles new `prefix_of` files.
Proof.
  unfold uploadFiles.
  assert (state w = state w /\
          exists new, calls w = calls w ++ new /\ Forall storageOnly new /\
                      uploadedFiles new `prefix_of` files) as Hnone.
  { split; [reflexivity|]. exists []. rewrite app_nil_r.
    split; [reflexivity|]. split; [constructor|apply prefix_nil]. }
  destruct (profileId profile) as [id|]; [|exact Hnone].
  destruct (negb (truthy id) || (length files =? 0)%nat); [exact Hnone|].
  unfold tryCatch, throw.
  pose proof (uploadEach_calls id files [] w) as Hrun.
  destruct (uploadEach id files [] w) as [[paths|e] w1]; exact Hrun.
Qed.

(** A loop that throws stopped at a first failing file. *)
Lemma uploadEach_throws_inv (id : string) (files : list File)
    (acc : list string) (e : JSError) (w w' : World) :
  uploadEach id files acc w = (Throw e, w') ->
  exists pre b post acc' w1,
    files = pre ++ b :: post /\
    uploadEach id pre acc w = (Return acc', w1) /\
    uploadOne id b w1 = (Throw e, w').
Proof.
  revert acc w. induction files as [|f files IH]; intros acc w;
    [discriminate|].
  simpl. unfold bind. destruct (uploadOne id f w) as [[p|e1] w1] eqn:Hone.
  - intros Hrest.
    destruct (IH _ _ Hrest) as (pre & b & post & acc' & w2 & -> & Hpre & Hb).
    exists (f :: pre), b, post, acc', w2. split; [reflexivity|].
    split; [|exact Hb]. simpl. unfold bind. rewrite Hone. exact Hpre.
  - intros [= <- <-]. exists [], f, files, acc, w. auto.
Qed.

(** X12. Whenever [uploadFiles] throws, there is an owner id and a first
    failing file: the files before it uploaded, it failed in one of the
    three ways, the error thrown is its error and names it, and the
    world is the one its attempt left. *)
Theorem uploadFiles_throws_only_for_a_file (profile : option Profile)
    (files : list File) (e : JSError) (w w' : World) :
  uploadFiles profile files w = (Throw e, w') ->
  exists id pre b post paths w1,
    profileId profile = Some id /\ truthy id = true /\
    files = pre ++ b :: post /\
    uploadFiles profile pre w = (Return paths, w1) /\
    Failure id b w1 e w' /\
    names b e.
Proof.
  unfold uploadFiles at 1.
  destruct (profileId profile) as [id|] eqn:Hid; [|discriminate].
  destruct (truthy id) eqn:Ht; [|discriminate]. simpl.
  destruct (length files =? 0)%nat; [discriminate|].
  unfold tryCatch, throw.
  destruct (uploadEach id files [] w) as [[paths|e1] w1] eqn:Hrun;
    [discriminate|].
  intros [= <- <-].
  destruct (uploadEach_throws_inv _ _ _ _ _ _ Hrun)
    as (pre & b & post & paths & w2 & -> & Hpre & Hb).
  apply uploadOne_throws in Hb.
  exists id, pre, b, post, paths, w2.
  split; [reflexivity|]. split; [exact Ht|]. split; [reflexivity|].
  split; [apply (uploadFiles_returns _ _ _ _ _ _ Hid Ht); exact Hpre|].
  split; [exact Hb|]. eapply Failure_names, Hb.
Qed.

Lemma uploadEach_paths (id : string) (files : list File)
    (acc paths : list string) (w w' : World) :
  uploadEach id files acc w = (Return paths, w') ->
  Forall (fun p => p <> "") acc ->
  Forall (fun p => p <> "") paths /\
  length paths = (length acc + length files)%nat.
Proof.
  revert acc w. induction files as [|f files IH]; intros acc w.
  - intros [= <- <-] Hacc. split; [exact Hacc|simpl; lia].
  - simpl. unfold bind. rewrite uploadOne_unfold.
    destruct (_ <? _)%N; [discriminate|].
    destruct (env_now (env w)) as [t e1].
    destruct (env_upload _ _ f _ e1) as [r e2].
    unfold verdict. destruct (error r); [discriminate|].
    destruct (data r) as [d|]; [|discriminate].
    destruct (truthy (path d)) eqn:Ht; [|discriminate].
    intros Hrest Hacc.
    destruct (IH _ _ Hrest) as [Hp Hlen].
    + apply Forall_app. split; [exact Hacc|]. repeat constructor.
      intros Hp. apply truthy_false in Hp. congruence.
    + split; [exact Hp|]. rewrite Hlen, length_app. simpl. lia.
Qed.

(** X13. With an owner id, a call that returns gives one path per file, none
    of them the empty string, and every file was at most 50 MiB. *)
Theorem uploadFiles_returns_valid (profile : option Profile) (id : string)
    (files : list File) (paths : list string) (w w' : World) :
  profileId profile = Some id -> truthy id = true ->
  uploadFiles profile files w = (Return paths, w') ->
  length paths = length files /\
  Forall (fun p => p <> "") paths /\
  Forall (fun f => (file_size f <= 50 * 1024 * 1024)%N) files.
Proof.
  intros Hid Ht Hrun.
  apply (uploadFiles_returns _ _ _ _ _ _ Hid Ht) in Hrun.
  destruct (uploadEach_paths _ _ _ _ _ _ Hrun) as [Hp Hlen]; [constructor|].
  destruct (uploadEach_returns _ _ _ _ _ _ Hrun) as (_ & _ & _ & _ & _ & Hsz).
  auto.
Qed.

End WithServices.

Lemma isDigit_pretty_N_char (x : N) : Submit.isDigit (pretty_N_char x) = true.
Proof. unfold pretty_N_char. repeat case_match; reflexivity. Qed.

Lemma digits_pretty_N_go (x : N) (s : string) :
  digits s -> digits (pretty_N_go x s).
Proof.
  revert s. induction (N.lt_wf_0 x) as [x _ IH]; intros s Hs.
  assert (x = 0 \/ 0 < x)%N as [->|Hx] by lia.
  - rewrite pretty_N_go_0. exact Hs.
  - rewrite pretty_N_go_step by exact Hx. apply IH.
    + apply N.div_lt; [exact Hx|reflexivity].
    + constructor; [apply isDigit_pretty_N_char|exact Hs].
Qed.

Lemma digits_pretty (t : N) : digits (pretty t).
Proof.
  unfold pretty, pretty_N. destruct (decide (t = 0%N)).
  - repeat constructor.
  - apply digits_pretty_N_go. constructor.
Qed.

(** Two strings of digits, each followed by a dash: the first dash ends
    the digits, so the parts are equal one by one. *)
Lemma digits_dash_inj (a b n1 n2 : string) :
  digits a -> digits b ->
  a +:+ "-" +:+ n1 = b +:+ "-" +:+ n2 -> a = b /\ n1 = n2.
Proof.
  revert b. induction a as [|c a IH]; intros [|c' b] Ha Hb Heq;
    cbn in Heq.
  - injection Heq as Heq. auto.
  - injection Heq as Hc _. inversion Hb as [|? ? Hd _]. subst c'.
    discriminate Hd.
  - injection Heq as Hc _. inversion Ha as [|? ? Hd _]. subst c.
    discriminate Hd.
  - injection Heq as Hc Heq. subst c'.
    inversion Ha as [|? ? _ Ha']. inversion Hb as [|? ? _ Hb']. subst.
    destruct (IH b Ha' Hb' Heq) as [-> ->]. auto.
Qed.

(** X14. Two uploads of one owner get the same storage key only when they
    read the same timestamp and the files have the same name. *)
Theorem storageKey_inj (id : string) (t1 t2 : N) (f1 f2 : File) :
  storageKey id t1 f1 = storageKey id t2 f2 ->
  t1 = t2 /\ file_name f1 = file_name f2.
Proof.
  unfold storageKey. intros Heq.
  apply (inj (String.append id)) in Heq. injection Heq as Heq.
  destruct (digits_dash_inj _ _ _ _ (digits_pretty t1) (digits_pretty t2) Heq)
    as [Ht Hn].
  split; [apply (inj pretty), Ht|exact Hn].
Qed.

End UploadMore.

(** ** More runs of the upload loop on the in-memory service *)

Module UploadMoreScenarios.
Import Platform Effects Upload UploadFacts UploadMore InMemory.

#[local] Open Scope list_scope.

Lemma uploadFiles_throws_only_for_a_file_witness :
  exists id pre b post paths w1,
    profileId owner = Some id /\ truthy id = true /\
    [nota; video; recibo] = pre ++ b :: post /\
    uploadFiles owner pre (start 1700000000000 1) = (Return paths, w1) /\
    Failure id b w1 (newError "Arquivo video.mp4 excede o limite de 50MB")
      (uploadFiles owner [nota; video; recibo] (start 1700000000000 1)).2 /\
    names b (newError "Arquivo video.mp4 excede o limite de 50MB").
Proof.
  apply (uploadFiles_throws_only_for_a_file owner [nota; video; recibo]).
  vm_compute. reflexivity.
Defined.

Lemma uploadFiles_returns_valid_witness :
  length ["u1/1700000000000-nota.pdf"; "u1/1700000000001-recibo.pdf"]
  = length [nota; recibo] /\
  Forall (fun p => p <> "")
    ["u1/1700000000000-nota.pdf"; "u1/1700000000001-recibo.pdf"] /\
  Forall (fun f => (file_size f <= 50 * 1024 * 1024)%N) [nota; recibo].
Proof.
  apply (uploadFiles_returns_valid owner "u1" [nota; recibo]
           ["u1/1700000000000-nota.pdf"; "u1/1700000000001-recibo.pdf"]
           (start 1700000000000 1)
           (uploadFiles owner [nota; recibo] (start 1700000000000 1)).2
           eq_refl eq_refl eq_refl).
Defined.

Lemma storageKey_inj_witness :
  1700000000000%N = 1700000000000%N /\ file_name nota = file_name nota.
Proof.
  apply (storageKey_inj "u1" 1700000000000 1700000000000 nota nota).
  reflexivity.
Defined.

End UploadMoreScenarios.

(** ** More on the submit handler *)

Module SubmitMore.
Import Platform Effects Upload Submit Traces.

#[local] Open Scope list_scope.

Section WithServices.
Context `{Services}.

(** The run of [onSubmit] with a caller identity, outcome by outcome of
    the two services. *)
Lemma onSubmit_run (profile : option Profile) (id : string) (v : FormData)
    (w : World) :
  profileId profile = Some id -> truthy id = true ->
  onSubmit profile v w =
  let p := requestOf v (state w) in
  let '(r, e1) := env_createRequest p (env w) in
  match r with
  | Throw _ =>
      (Return tt,
       ended e1 (setUploading false (state w)) w
         [CallCreateRequest p; CallToast failureToast])
  | Return created =>
      match requestId created, filesOf (state w) with
      | Some rid, f :: files =>
          let '(r2, e2) := env_uploadInvoices rid (f :: files) e1 in
          match r2 with
          | Return _ =>
              (Return tt,
               ended e2 cleared w
                 [CallCreateRequest p; CallUploadInvoices rid (f :: files);
                  CallToast successToast])
          | Throw _ =>
              (Return tt,
               ended e2 (setUploading false (state w)) w
                 [CallCreateRequest p; CallUploadInvoices rid (f :: files);
                  CallToast failureToast])
          end
      | _, _ =>
          (Return tt,
           ended e1 cleared w [CallCreateRequest p; CallToast successToast])
      end
  end.
Proof.
  intros Hid Ht. unfold onSubmit. rewrite Hid, Ht. simpl.
  unfold tryFinally, tryCatch, bind, modifyState, getState, createRequest,
    uploadInvoices, toast, record, ret, ended, requestOf, filesOf, requestId.
  simpl.
  destruct (env_createRequest _ (env w)) as [[created|err] e1]; simpl;
    [|rewrite <- app_assoc; reflexivity].
  destruct created as [c|]; simpl; [|rewrite <- app_assoc; reflexivity].
  destruct (omap file (invoices (state w))) as [|f files]; simpl.
  { destruct (truthy (created_id c)); rewrite <- app_assoc; reflexivity. }
  destruct (truthy (created_id c)); simpl;
    [|rewrite <- app_assoc; reflexivity].
  destruct (env_uploadInvoices _ _ e1) as [[[]|err] e2]; simpl;
    rewrite <- !app_assoc; reflexivity.
Qed.

Lemma not_truthy_requestId (created : option Created) :
  requestId created = None <->
  created = None \/ created_id <$> created = Some "".
Proof.
  destruct created as [[cid]|]; simpl; [|split; auto].
  destruct (truthy cid) eqn:Ht; split.
  - discriminate.
  - intros [?|[= ->]]; discriminate.
  - intros _. right. f_equal. apply UploadFacts.truthy_false, Ht.
  - reflexivity.
Qed.

(** X15. Whatever the profile, the form and the services, [onSubmit] returns
    normally: no error of a service escapes it.  It shows exactly one
    toast, and the toast is its last call. *)
Theorem onSubmit_never_throws (profile : option Profile) (v : FormData)
    (w : World) :
  (onSubmit profile v w).1 = Return tt /\
  exists new t,
    calls (onSubmit profile v w).2 = calls w ++ new ++ [CallToast t] /\
    Forall (fun c => ~ isToast c) new.
Proof.
  destruct (profileId profile) as [id|] eqn:Hid.
  2: { unfold onSubmit. rewrite Hid. split; [reflexivity|].
       exists [], missingIdentityToast. simpl.
       split; [reflexivity|constructor]. }
  destruct (truthy id) eqn:Ht.
  2: { unfold onSubmit. rewrite Hid, Ht. split; [reflexivity|].
       exists [], missingIdentityToast. simpl.
       split; [reflexivity|constructor]. }
  rewrite (onSubmit_run _ _ _ _ Hid Ht). cbv zeta.
  destruct (env_createRequest _ (env w)) as [[created|err] e1].
  - destruct (requestId created) as [rid|];
      [destruct (filesOf (state w)) as [|f files]|].
    + split; [reflexivity|]. eexists [_], _. simpl.
      split; [reflexivity|]. repeat constructor. exact (fun x => x).
    + destruct (env_uploadInvoices _ _ e1) as [[[]|err] e2];
        (split; [reflexivity|]); eexists [_; _], _; simpl;
        (split; [reflexivity|]); repeat constructor; exact (fun x => x).
    + split; [reflexivity|]. eexists [_], _. simpl.
      split; [reflexivity|]. repeat constructor. exact (fun x => x).
  - split; [reflexivity|]. eexists [_], _. simpl.
    split; [reflexivity|]. repeat constructor. exact (fun x => x).
Qed.

(** X16. With a caller identity, the first call of [onSubmit] is
    createRequest, with the form's cpf, amount and polo and the
    invoices and dependents of the state; it is the only createRequest,
    the calls after it are at most one uploadInvoices and the toast,
    and the uploading flag is off at the end. *)
Theorem onSubmit_creates_once (profile : option Profile) (id : string)
    (v : FormData) (w : World) :
  profileId profile = Some id -> truthy id = true ->
  exists rest,
    calls (onSubmit profile v w).2
    = calls w ++ CallCreateRequest (requestOf v (state w)) :: rest /\
    Forall afterCreate rest /\
    (length rest <= 2)%nat /\
    uploading (state (onSubmit profile v w).2) = false.
Proof.
  intros Hid Ht. rewrite (onSubmit_run _ _ _ _ Hid Ht). cbv zeta.
  destruct (env_createRequest _ (env w)) as [[created|err] e1].
  - destruct (requestId created) as [rid|];
      [destruct (filesOf (state w)) as [|f files]|].
    + eexists. simpl. split; [reflexivity|]. repeat constructor.
    + destruct (env_uploadInvoices _ _ e1) as [[[]|err] e2];
        eexists; simpl; (split; [reflexivity|]); repeat constructor.
    + eexists. simpl. split; [reflexivity|]. repeat constructor.
  - eexists. simpl. split; [reflexivity|]. repeat constructor.
Qed.

(** X17. With a caller identity, when createRequest fails, nothing is
    uploaded, the toast is the one of failure, and the form keeps what
    the user entered: its values, dependents and invoices. *)
Theorem onSubmit_create_fails (profile : option Profile) (id : string)
    (v : FormData) (w : World) (err : JSError) (e1 : Env) :
  profileId profile = Some id -> truthy id = true ->
  env_createRequest (requestOf v (state w)) (env w) = (Throw err, e1) ->
  onSubmit profile v w
  = (Return tt,
     ended e1 (setUploading false (state w)) w
       [CallCreateRequest (requestOf v (state w)); CallToast failureToast]) /\
  values (state (onSubmit profile v w).2) = values (state w) /\
  dependents (state (onSubmit profile v w).2) = dependents (state w) /\
  invoices (state (onSubmit profile v w).2) = invoices (state w).
Proof.
  intros Hid Ht Hc. rewrite (onSubmit_run _ _ _ _ Hid Ht). cbv zeta.
  rewrite Hc. auto.
Qed.

(** X18. With a caller identity, when the request is created with an id and
    uploadInvoices fails for the files of the invoices, the request
    stays created, the toast is the one of failure, and the form keeps
    what the user entered. *)
Theorem onSubmit_upload_fails (profile : option Profile) (id : string)
    (v : FormData) (w : World) (created : option Created) (rid : string)
    (err : JSError) (e1 e2 : Env) :
  profileId profile = Some id -> truthy id = true ->
  env_createRequest (requestOf v (state w)) (env w) = (Return created, e1) ->
  requestId created = Some rid ->
  filesOf (state w) <> [] ->
  env_uploadInvoices rid (filesOf (state w)) e1 = (Throw err, e2) ->
  onSubmit profile v w
  = (Return tt,
     ended e2 (setUploading false (state w)) w
       [CallCreateRequest (requestOf v (state w));
        CallUploadInvoices rid (filesOf (state w));
        CallToast failureToast]).
Proof.
  intros Hid Ht Hc Hrid Hfiles Hu.
  rewrite (onSubmit_run _ _ _ _ Hid Ht). cbv zeta. rewrite Hc, Hrid.
  destruct (filesOf (state w)) as [|f files]; [congruence|].
  rewrite Hu. reflexivity.
Qed.

(** X19. With a caller identity, when the request is created with an id and
    uploadInvoices returns for the files of the invoices (those that
    carry a file, in order), the form is cleared and the toast is the
    one of success. *)
Theorem onSubmit_succeeds (profile : option Profile) (id : string)
    (v : FormData) (w : World) (created : option Created) (rid : string)
    (e1 e2 : Env) :
  profileId profile = Some id -> truthy id = true ->
  env_createRequest (requestOf v (state w)) (env w) = (Return created, e1) ->
  requestId created = Some rid ->
  filesOf (state w) <> [] ->
  env_uploadInvoices rid (filesOf (state w)) e1 = (Return tt, e2) ->
  onSubmit profile v w
  = (Return tt,
     ended e2 cleared w
       [CallCreateRequest (requestOf v (state w));
        CallUploadInvoices rid (filesOf (state w));
        CallToast successToast]).
Proof.
  intros Hid Ht Hc Hrid Hfiles Hu.
  rewrite (onSubmit_run _ _ _ _ Hid Ht). cbv zeta. rewrite Hc, Hrid.
  destruct (filesOf (state w)) as [|f files]; [congruence|].
  rewrite Hu. reflexivity.
Qed.

(** X20. With a caller identity, when createRequest returns and either no
    invoice carries a file or the answer has no id (it is null, or its
    id is the empty string), uploadInvoices is not called; the form is
    cleared, invoices and their files included, and the toast is the
    one of success. *)
Theorem onSubmit_skips_upload (profile : option Profile) (id : string)
    (v : FormData) (w : World) (created : option Created) (e1 : Env) :
  profileId profile = Some id -> truthy id = true ->
  env_createRequest (requestOf v (state w)) (env w) = (Return created, e1) ->
  filesOf (state w) = [] \/ created = None
  \/ created_id <$> created = Some "" ->
  onSubmit profile v w
  = (Return tt,
     ended e1 cleared w
       [CallCreateRequest (requestOf v (state w)); CallToast successToast]).
Proof.
  intros Hid Ht Hc Hskip.
  rewrite (onSubmit_run _ _ _ _ Hid Ht). cbv zeta. rewrite Hc.
  destruct Hskip as [Hf|Hn].
  - rewrite Hf. destruct (requestId created); reflexivity.
  - apply not_truthy_requestId in Hn. rewrite Hn. reflexivity.
Qed.

End WithServices.
End SubmitMore.

(** ** Validation of the form and of what is typed *)

Module ValidationFacts.
Import Platform Submit Inputs Traces.

#[local] Open Scope list_scope.

Lemma nan_not_leb (x y : float) : is_nan y = true -> (x <=? y)%float = false.
Proof.
  intros Hy%is_nan_true. rewrite leb_spec, Hy. unfold SFleb.
  destruct (Prim2SF x); reflexivity.
Qed.

Lemma stringMin_nil (field : string) (n : nat) (msg s : string) :
  stringMin field n msg s = [] <-> (n <= jsLength s)%nat.
Proof.
  unfold stringMin, issue.
  destruct (Nat.ltb_spec (jsLength s) n); split;
    (discriminate || lia || reflexivity).
Qed.

Lemma numberMin_nil (field : string) (bound : float) (msg : string)
    (x : float) :
  is_nan bound = false ->
  numberMin field bound msg x = [] <-> (bound <=? x)%float = true.
Proof.
  intros Hb. unfold numberMin, issue.
  destruct (is_nan x) eqn:Hn.
  - rewrite (nan_not_leb bound x Hn). split; discriminate.
  - destruct (x <? bound)%float eqn:Hlt.
    + rewrite (ltb_not_leb _ _ Hlt). split; discriminate.
    + split; [intros _|reflexivity].
      destruct (bound <=? x)%float eqn:Hle; [reflexivity|].
      rewrite (not_leb_ltb _ _ Hb Hn Hle) in Hlt. discriminate.
Qed.

(** A text is empty exactly when it has no code unit. *)
Lemma jsLength_positive (s : string) : (1 <= jsLength s)%nat <-> s <> "".
Proof.
  unfold jsLength. destruct s as [|c rest]; simpl; [split; [lia|congruence]|].
  split; [congruence|intros _].
  repeat (destruct (_ <? _)%nat); lia.
Qed.

(** A text of decimal digits has one code unit per byte. *)
Lemma jsLength_digits (s : string) :
  forallb isDigit (list_ascii_of_string s) = true ->
  jsLength s = String.length s.
Proof.
  unfold jsLength. induction s as [|c rest IH]; [reflexivity|].
  simpl. intros [Hc Hrest]%andb_true_iff.
  unfold isDigit in Hc. apply andb_true_iff in Hc as [_ Hc].
  apply Nat.leb_le in Hc.
  destruct (Nat.ltb_spec (nat_of_ascii c) 128); [|lia].
  rewrite (IH Hrest). reflexivity.
Qed.

Example jsLength_accents :
  jsLength "José" = 4%nat /\ String.length "José" = 5%nat /\
  stringMin "name" 2 "" "é" = issue "name" "".
Proof. repeat split. Qed.

Example firstPerField_defaultValues :
  issue_field <$> formSchema defaultValues = ["cpf"; "cpf"; "amount"; "polo"]
  /\ issue_message <$> firstPerField [] (formSchema defaultValues)
     = ["CPF obrigatório"; "Valor deve ser maior que zero";
        "Selecione o polo"].
Proof. split; reflexivity. Qed.

Lemma length_string_of_list_ascii (l : list ascii) :
  String.length (string_of_list_ascii l) = length l.
Proof. induction l as [|c l IH]; simpl; congruence. Qed.

Lemma length_list_ascii_of_string (s : string) :
  length (list_ascii_of_string s) = String.length s.
Proof. induction s as [|c s IH]; simpl; congruence. Qed.

(** X22. The form is accepted exactly when the CPF is eleven decimal digits,
    the amount is a number that is at least 0.01, a polo is selected,
    and the salary is absent or a number that is at least 0. *)
Theorem formSchema_accepts_iff (v : FormData) :
  formSchema v = [] <->
  elevenDigits (cpf v) = true /\
  (0.01 <=? amount v)%float = true /\
  polo v <> "" /\
  match salary v with
  | Some x => (0 <=? x)%float = true
  | None => True
  end.
Proof.
  unfold formSchema. rewrite !app_nil, !stringMin_nil.
  rewrite (numberMin_nil "amount" 0.01) by reflexivity.
  assert ((1 <= jsLength (polo v))%nat <-> polo v <> "") as ->.
  { apply jsLength_positive. }
  assert (match salary v with
          | Some x =>
              numberMin "salary" 0 "Salário deve ser um valor válido" x
          | None => []
          end = []
          <-> match salary v with
              | Some x => (0 <=? x)%float = true
              | None => True
              end) as ->.
  { destruct (salary v) as [x|]; [|split; auto].
    apply numberMin_nil. reflexivity. }
  assert ((if elevenDigits (cpf v) then []
           else issue "cpf" "CPF deve ter 11 dígitos numéricos") = []
          <-> elevenDigits (cpf v) = true) as ->.
  { destruct (elevenDigits (cpf v)); split; (reflexivity || discriminate). }
  assert (elevenDigits (cpf v) = true -> (11 <= jsLength (cpf v))%nat)
    as Hlen.
  { unfold elevenDigits. intros [Hl Hd]%andb_true_iff.
    apply Nat.eqb_eq in Hl. rewrite (jsLength_digits _ Hd). lia. }
  tauto.
Qed.

(** X23. What the CPF input keeps of the text typed is made of decimal
    digits, at most eleven of them, and keeping again changes nothing. *)
Theorem sanitizeCpf_digits (value : string) :
  digits (sanitizeCpf value) /\
  (String.length (sanitizeCpf value) <= 11)%nat /\
  sanitizeCpf (sanitizeCpf value) = sanitizeCpf value.
Proof.
  unfold sanitizeCpf, digits.
  set (l := List.filter isDigit (list_ascii_of_string value)).
  assert (Forall (fun c => isDigit c = true) (take 11 l)) as Hd.
  { apply Forall_take. subst l. apply Forall_forall.
    intros c Hc%list_elem_of_In%filter_In. apply Hc. }
  rewrite !list_ascii_of_string_of_list_ascii, length_string_of_list_ascii.
  split; [exact Hd|]. split; [apply firstn_le_length|].
  rewrite forallb_filter_id, take_take.
  - reflexivity.
  - apply forallb_forall. intros c Hc%list_elem_of_In.
    rewrite Forall_forall in Hd. apply Hd, Hc.
Qed.

(** X24. The CPF the input keeps passes the rules of the form exactly when
    the text typed holds at least eleven decimal digits. *)
Theorem sanitizeCpf_accepted_iff (value : string) :
  elevenDigits (sanitizeCpf value) = true <->
  (11 <= length (List.filter isDigit (list_ascii_of_string value)))%nat.
Proof.
  unfold elevenDigits, sanitizeCpf.
  set (l := List.filter isDigit (list_ascii_of_string value)).
  rewrite list_ascii_of_string_of_list_ascii, length_string_of_list_ascii.
  assert (forallb isDigit (take 11 l) = true) as ->.
  { apply forallb_forall. intros c Hc.
    assert (c ∈ l) as Hl.
    { apply list_elem_of_In in Hc.
      eapply (subseteq_take 11 l), Hc. }
    apply list_elem_of_In in Hl. subst l. apply filter_In in Hl. apply Hl. }
  rewrite andb_true_r, length_take, Nat.eqb_eq. lia.
Qed.

(** X25. A CPF of eleven decimal digits is kept as it was typed. *)
Theorem sanitizeCpf_keeps_valid (value : string) :
  elevenDigits value = true -> sanitizeCpf value = value.
Proof.
  unfold elevenDigits, sanitizeCpf. intros [Hlen Hd]%andb_true_iff.
  apply Nat.eqb_eq in Hlen.
  rewrite forallb_filter_id by exact Hd.
  rewrite take_ge by (rewrite length_list_ascii_of_string; lia).
  apply string_of_list_ascii_of_string.
Qed.

Lemma sanitizeCpf_keeps_valid_witness :
  sanitizeCpf "12345678901" = "12345678901".
Proof. apply (sanitizeCpf_keeps_valid "12345678901"). reflexivity. Defined.

End ValidationFacts.

(** ** The submit handler on scripted services *)

Module SubmitMoreScenarios.
Import Platform Effects Upload Submit Traces SubmitMore Scripted.

#[local] Open Scope list_scope.

Lemma onSubmit_creates_once_witness :
  exists rest,
    calls (onSubmit user filledValues (run (Return r1) (Return tt))).2
    = [] ++ CallCreateRequest (requestOf filledValues invoiced) :: rest /\
    Forall afterCreate rest /\
    (length rest <= 2)%nat /\
    uploading (state (onSubmit user filledValues
                        (run (Return r1) (Return tt))).2) = false.
Proof.
  apply (onSubmit_creates_once user "u1" filledValues
           (run (Return r1) (Return tt)) eq_refl eq_refl).
Defined.

Lemma onSubmit_create_fails_witness :
  onSubmit user filledValues (run (Throw down) (Return tt))
  = (Return tt,
     ended (env (run (Throw down) (Return tt))) invoiced
       (run (Throw down) (Return tt))
       [CallCreateRequest (requestOf filledValues invoiced);
        CallToast failureToast]).
Proof.
  apply (proj1 (onSubmit_create_fails user "u1" filledValues
                  (run (Throw down) (Return tt)) down
                  (env (run (Throw down) (Return tt)))
                  eq_refl eq_refl eq_refl)).
Defined.

Lemma onSubmit_upload_fails_witness :
  onSubmit user filledValues (run (Return r1) (Throw down))
  = (Return tt,
     ended (env (run (Return r1) (Throw down))) invoiced
       (run (Return r1) (Throw down))
       [CallCreateRequest (requestOf filledValues invoiced);
        CallUploadInvoices "r1" [InMemory.nota];
        CallToast failureToast]).
Proof.
  apply (onSubmit_upload_fails user "u1" filledValues
           (run (Return r1) (Throw down)) r1 "r1" down
           (env (run (Return r1) (Throw down)))
           (env (run (Return r1) (Throw down)))
           eq_refl eq_refl eq_refl eq_refl).
  - discriminate.
  - reflexivity.
Defined.

Lemma onSubmit_succeeds_witness :
  onSubmit user filledValues (run (Return r1) (Return tt))
  = (Return tt,
     ended (env (run (Return r1) (Return tt))) cleared
       (run (Return r1) (Return tt))
       [CallCreateRequest (requestOf filledValues invoiced);
        CallUploadInvoices "r1" [InMemory.nota];
        CallToast successToast]).
Proof.
  apply (onSubmit_succeeds user "u1" filledValues
           (run (Return r1) (Return tt)) r1 "r1"
           (env (run (Return r1) (Return tt)))
           (env (run (Return r1) (Return tt)))
           eq_refl eq_refl eq_refl eq_refl).
  - discriminate.
  - reflexivity.
Defined.

Lemma onSubmit_skips_upload_witness :
  onSubmit user filledValues (run (Return None) (Return tt))
  = (Return tt,
     ended (env (run (Return None) (Return tt))) cleared
       (run (Return None) (Return tt))
       [CallCreateRequest (requestOf filledValues invoiced);
        CallToast successToast]).
Proof.
  apply (onSubmit_skips_upload user "u1" filledValues
           (run (Return None) (Return tt)) None
           (env (run (Return None) (Return tt)))
           eq_refl eq_refl eq_refl).
  right. left. reflexivity.
Defined.

End SubmitMoreScenarios.

(** ** What the component can submit *)

Module ComponentFacts.
Import Platform Effects Upload Submit Inputs Traces Component.

#[local] Open Scope list_scope.

Section WithServices.
Context `{Services}.
Variable toFixed2 : float -> string.




(** The submit handler of the form library, as modelled, is made of
    events of the component. *)
Lemma handleSubmit_steps (profile : option Profile) (w : World) :
  rtc (step toFixed2) w (handleSubmit profile w).2.
Proof.
  unfold handleSubmit, bind, getState, modifyState. simpl.
  destruct (formSchema (values (state w))) as [|i issues]; simpl.
  - eapply rtc_l; [apply (ShowErrors toFixed2 w [])|].
    apply rtc_once. apply Submit.
  - apply rtc_once. apply ShowErrors.
Qed.


End WithServices.


End ComponentFacts.
